(** * print-battleground-state-changes.py: the snapshot extraction and caching
      pipeline ([process_json_data], [parse_isoformat], [fetch_all_records])

    The Python source is embedded shallowly.

    - A Python exception is a value of [exn]; a computation that may raise
      has type [result A].
    - The trees produced by [simdjson] and [json.load] are values of [json].
      Numbers are integers; floating-point literals are outside the embedding.
      A [JObj] lists the items of a [dict] in insertion order and a key is
      looked up at its first occurrence.
    - The cache directory is a finite map from path to file.  A file is
      represented by what [json.load] makes of its text: a [ValueError]
      ([Garbled]) or the decoded tree ([Decoded]); [json.dump] writes the text
      that decodes to the dumped tree.
    - [git log], [git show] and the [simdjson] parser are collaborators of the
      pipeline, given by a record [env].
    - [datetime.datetime.fromisoformat] is a parameter of the pipeline, with
      the two facts the standard library documents for it stated as
      [fromisoformat_laws]; [Py37.fromisoformat] is a parser for the grammar
      documented for Python 3.7 that satisfies them. *)

From Stdlib Require Import ZArith Lia Bool List Ascii Permutation Sorted.
From stdpp Require Import base option list strings gmap.

Local Open Scope Z_scope.

Set Warnings "-register-all".

(** ** Exceptions *)

Inductive exn : Set :=
| AttributeError
| KeyError
| TypeError
| ValueError
| CalledProcessError
| GitError.

Inductive result (A : Type) : Type :=
| Ok (a : A)
| Raise (e : exn).

Arguments Ok {A} a.
Arguments Raise {A} e.

#[global] Instance result_ret : MRet result := @Ok.

#[global] Instance result_bind : MBind result := λ A B k m,
  match m with
  | Ok a => k a
  | Raise e => Raise e
  end.

(** [for x in xs: body], where the body may raise, collecting what each
    iteration appends. *)
Fixpoint for_each {A B : Type} (body : A → result (list B)) (xs : list A)
  : result (list B) :=
  match xs with
  | [] => Ok []
  | x :: xs' =>
      ys ← body x;
      zs ← for_each body xs';
      Ok (ys ++ zs)
  end.

(** ** JSON trees and the Python operations the pipeline applies to them *)

Inductive json : Type :=
| JNull
| JBool (b : bool)
| JInt (z : Z)
| JStr (s : string)
| JArr (items : list json)
| JObj (items : list (string * json)).

(** [d[key]] on the items of a dict; [None] when the key is missing. *)
Fixpoint dict_lookup (key : string) (items : list (string * json)) : option json :=
  match items with
  | [] => None
  | (k, v) :: items' => if String.eqb k key then Some v else dict_lookup key items'
  end.

(** [list(d)]: the keys, each once. *)
Fixpoint dict_keys (items : list (string * json)) : list string :=
  match items with
  | [] => []
  | (k, _) :: items' =>
      k :: List.filter (fun k' => negb (String.eqb k k')) (dict_keys items')
  end.

(** [x.get(key, default)]: only a dict has the method. *)
Definition py_get (x : json) (key : string) (default : json) : result json :=
  match x with
  | JObj items =>
      match dict_lookup key items with
      | Some v => Ok v
      | None => Ok default
      end
  | _ => Raise AttributeError
  end.

(** [x[key]] with a string key. *)
Definition py_getitem (x : json) (key : string) : result json :=
  match x with
  | JObj items =>
      match dict_lookup key items with
      | Some v => Ok v
      | None => Raise KeyError
      end
  | _ => Raise TypeError
  end.

Fixpoint chars (s : string) : list json :=
  match s with
  | EmptyString => []
  | String c s' => JStr (String c EmptyString) :: chars s'
  end.

(** [iter(x)]: the items of a list, the keys of a dict, the characters of a
    string; nothing else is iterable. *)
Definition py_iter (x : json) : result (list json) :=
  match x with
  | JArr items => Ok items
  | JObj items => Ok (List.map JStr (dict_keys items))
  | JStr s => Ok (chars s)
  | _ => Raise TypeError
  end.

(** The sequence a loop [for v in x.get(key, [])] runs over. *)
Definition iter_get (x : json) (key : string) : result (list json) :=
  l ← py_get x key (JArr []);
  py_iter l.

(** [s.replace("Z", "+00:00")]. *)
Fixpoint replace_Z (s : string) : string :=
  match s with
  | EmptyString => EmptyString
  | String c s' =>
      if Ascii.eqb c "Z"%char then "+00:00" +:+ replace_Z s' else String c (replace_Z s')
  end.

(** [x == y] between two hashable values, as a [dict] compares keys:
    [True] and [False] are the integers 1 and 0. *)
Definition py_eqb (x y : json) : bool :=
  match x, y with
  | JNull, JNull => true
  | JStr s, JStr t => String.eqb s t
  | JInt a, JInt b => a =? b
  | JBool a, JBool b => Bool.eqb a b
  | JInt a, JBool b => a =? Z.b2z b
  | JBool a, JInt b => Z.b2z a =? b
  | _, _ => false
  end.

Definition hashable (x : json) : bool :=
  match x with
  | JArr _ | JObj _ => false
  | _ => true
  end.

(** ** [datetime.datetime] *)

(** The offset of an aware datetime is its [utcoffset()] in microseconds;
    a naive datetime has none. *)
Record datetime : Set := mkDatetime {
  year : Z;
  month : Z;
  day : Z;
  hour : Z;
  minute : Z;
  second : Z;
  microsecond : Z;
  utcoffset : option Z
}.

Definition is_leap (y : Z) : bool :=
  (y mod 4 =? 0) && (negb (y mod 100 =? 0) || (y mod 400 =? 0)).

Definition days_in_month (y m : Z) : Z :=
  if m =? 2 then (if is_leap y then 29 else 28)
  else if (m =? 4) || (m =? 6) || (m =? 9) || (m =? 11) then 30
  else 31.

Definition day_us : Z := 86400 * 1000000.

(** What the constructors of [datetime] and [timezone] accept. *)
Definition valid_datetime (d : datetime) : bool :=
  (1 <=? year d) && (year d <=? 9999) &&
  (1 <=? month d) && (month d <=? 12) &&
  (1 <=? day d) && (day d <=? days_in_month (year d) (month d)) &&
  (0 <=? hour d) && (hour d <? 24) &&
  (0 <=? minute d) && (minute d <? 60) &&
  (0 <=? second d) && (second d <? 60) &&
  (0 <=? microsecond d) && (microsecond d <? 1000000) &&
  match utcoffset d with
  | None => true
  | Some off => (- day_us <? off) && (off <? day_us)
  end.

Definition digit_char (n : Z) : ascii :=
  ascii_of_nat (48 + Z.to_nat n)%nat.

(** ["%0wd" % n] for [0 <= n < 10 ^ w]. *)
Fixpoint digits (w : nat) (n : Z) : string :=
  match w with
  | O => EmptyString
  | S w' => String (digit_char ((n / 10 ^ Z.of_nat w') mod 10)) (digits w' n)
  end.

(** [_format_offset]: [+HH:MM], then [:SS] and [.ffffff] when not zero. *)
Definition format_offset (off : Z) : string :=
  let sign := if off <? 0 then "-" else "+" in
  let a := Z.abs off in
  let hh := a / 3600000000 in
  let mm := (a / 60000000) mod 60 in
  let ss := (a / 1000000) mod 60 in
  let us := a mod 1000000 in
  sign +:+ digits 2 hh +:+ ":" +:+ digits 2 mm +:+
  (if (ss =? 0) && (us =? 0) then ""
   else ":" +:+ digits 2 ss +:+
        (if us =? 0 then "" else "." +:+ digits 6 us)).

(** [d.isoformat()]. *)
Definition isoformat (d : datetime) : string :=
  digits 4 (year d) +:+ "-" +:+ digits 2 (month d) +:+ "-" +:+
  digits 2 (day d) +:+ "T" +:+ digits 2 (hour d) +:+ ":" +:+
  digits 2 (minute d) +:+ ":" +:+ digits 2 (second d) +:+
  (if microsecond d =? 0 then "" else "." +:+ digits 6 (microsecond d)) +:+
  match utcoffset d with
  | None => ""
  | Some off => format_offset off
  end.

Definition days_before_year (y : Z) : Z :=
  let p := y - 1 in p * 365 + p / 4 - p / 100 + p / 400.

Definition days_before_month (y m : Z) : Z :=
  (if 1 <? m then 31 else 0) +
  (if 2 <? m then (if is_leap y then 29 else 28) else 0) +
  (if 3 <? m then 31 else 0) + (if 4 <? m then 30 else 0) +
  (if 5 <? m then 31 else 0) + (if 6 <? m then 30 else 0) +
  (if 7 <? m then 31 else 0) + (if 8 <? m then 31 else 0) +
  (if 9 <? m then 30 else 0) + (if 10 <? m then 31 else 0) +
  (if 11 <? m then 30 else 0).

Definition ymd2ord (y m d : Z) : Z :=
  days_before_year y + days_before_month y m + d.

(** Microseconds since the start of day 0 of the proleptic calendar, on the
    datetime's own clock. *)
Definition wall_us (d : datetime) : Z :=
  (((ymd2ord (year d) (month d) (day d) * 24 + hour d) * 60 + minute d) * 60
   + second d) * 1000000 + microsecond d.

(** [a < b]: two naive datetimes compare by their fields, two aware ones by
    instant; one of each is a [TypeError]. *)
Definition datetime_lt (a b : datetime) : result bool :=
  match utcoffset a, utcoffset b with
  | None, None => Ok (wall_us a <? wall_us b)
  | Some oa, Some ob => Ok (wall_us a - oa <? wall_us b - ob)
  | _, _ => Raise TypeError
  end.

(** ** Constants and [InputRecord] *)

Definition CACHE_DIR : string := "_cache".
Definition CACHE_VERSION : Z := 2.

(** A [NamedTuple] does not check its annotations, so a field holds whatever
    it was given: a tree for nine of them, and for [timestamp] a [datetime]
    or, when a cache row carried something that is not a string, that tree. *)
Inductive timestamp_value : Type :=
| TsDatetime (d : datetime)
| TsOther (j : json).

Record InputRecord : Type := mkInputRecord {
  timestamp : timestamp_value;
  state_name : json;
  state_abbrev : json;
  electoral_votes : json;
  candidates : json;
  votes : json;
  expected_votes : json;
  precincts_total : json;
  precincts_reporting : json;
  counties : json
}.

Definition InputRecord_fields : list string :=
  ["timestamp"; "state_name"; "state_abbrev"; "electoral_votes"; "candidates";
   "votes"; "expected_votes"; "precincts_total"; "precincts_reporting";
   "counties"].

(** The call of [InputRecord] on line 102, with the items of [row_data] as
    keyword arguments; [ts] is [row_data['timestamp']] after the conversion on
    line 101.  A keyword that is not a field, or a field without a keyword, is
    a [TypeError]. *)
Definition InputRecord_kwargs (ts : timestamp_value) (row_data : list (string * json))
  : result InputRecord :=
  if forallb (λ k, existsb (String.eqb k) InputRecord_fields) (List.map fst row_data)
  then
    match
      (_ ← dict_lookup "timestamp" row_data;
       sn ← dict_lookup "state_name" row_data;
       sa ← dict_lookup "state_abbrev" row_data;
       ev ← dict_lookup "electoral_votes" row_data;
       cs ← dict_lookup "candidates" row_data;
       vs ← dict_lookup "votes" row_data;
       xv ← dict_lookup "expected_votes" row_data;
       pt ← dict_lookup "precincts_total" row_data;
       pr ← dict_lookup "precincts_reporting" row_data;
       co ← dict_lookup "counties" row_data;
       Some (mkInputRecord ts sn sa ev cs vs xv pt pr co))
    with
    | Some r => Ok r
    | None => Raise TypeError
    end
  else Raise TypeError.

(** [{**row._asdict(), 'timestamp': ...}] of lines 112-115. *)
Definition row_for_cache (row : InputRecord) : json :=
  JObj [("timestamp",
         match timestamp row with
         | TsDatetime d => JStr (isoformat d)
         | TsOther j => j
         end);
        ("state_name", state_name row);
        ("state_abbrev", state_abbrev row);
        ("electoral_votes", electoral_votes row);
        ("candidates", candidates row);
        ("votes", votes row);
        ("expected_votes", expected_votes row);
        ("precincts_total", precincts_total row);
        ("precincts_reporting", precincts_reporting row);
        ("counties", counties row)].

(** ** Collaborators and the cache directory *)

Record env : Type := mkEnv {
  (** [subprocess.check_output(['git', 'log', '--format=%H', path])], split
      into lines *)
  git_log : string → result (list string);
  (** [git.Repo('.', odbt=git.db.GitCmdObjectDB)] *)
  git_Repo : result unit;
  (** [repo_client.commit(ref).tree[name].data_stream.read()] *)
  git_blob : string → string → result string;
  (** [simdjson.Parser().parse(blob)] *)
  simdjson_parse : string → result json
}.

Inductive file : Type :=
| Garbled
| Decoded (j : json).

Definition starts_with_sep (s : string) : bool :=
  match s with
  | String c _ => Ascii.eqb c "/"%char
  | EmptyString => false
  end.

Fixpoint ends_with_sep (s : string) : bool :=
  match s with
  | EmptyString => false
  | String c EmptyString => Ascii.eqb c "/"%char
  | String _ s' => ends_with_sep s'
  end.

(** [os.path.join] on POSIX, one component at a time. *)
Definition path_join (path b : string) : string :=
  if starts_with_sep b then b
  else if String.eqb path "" || ends_with_sep path then path +:+ b
  else path +:+ "/" +:+ b.

(** [s[n:]]. *)
Fixpoint string_drop (n : nat) (s : string) : string :=
  match n, s with
  | S n', String _ s' => string_drop n' s'
  | _, _ => s
  end.

(** Line 89. *)
Definition cache_path (ref : string) : string :=
  path_join (path_join CACHE_DIR (String.substring 0 2 ref))
            (string_drop 2 ref +:+ ".json").

(** ** The functions of the source *)

Definition git_commits_for (E : env) (path : string) : result (list string) :=
  git_log E path.

Definition git_show (E : env) (ref name : string) : result string :=
  git_blob E ref name.

(** [d[key] = value] on the items of a dict: a key that is present keeps its
    place and takes the new value. *)
Fixpoint dict_set (key : string) (value : json) (items : list (string * json))
  : list (string * json) :=
  match items with
  | [] => [(key, value)]
  | (k, v) :: items' =>
      if String.eqb k key then (k, value) :: items'
      else (k, v) :: dict_set key value items'
  end.

(** A dict comprehension [{k: v for k, v in items}]: the items are set one
    after the other, so a key that comes twice is held once, with its last
    value. *)
Definition dict_of_items (items : list (string * json)) : list (string * json) :=
  fold_left (λ d kv, dict_set (fst kv) (snd kv) d) items [].

(** [simdjson] objects and native Python values are both trees of [json].
    An array is rebuilt item by item; an object, which may hold a key more
    than once, becomes the dict of the comprehension on line 45. *)
Fixpoint to_python_type (data : json) : json :=
  match data with
  | JObj items =>
      JObj (dict_of_items (List.map (λ kv, (fst kv, to_python_type (snd kv))) items))
  | JArr items => JArr (List.map to_python_type items)
  | _ => data
  end.

Section Pipeline.

(** [datetime.datetime.fromisoformat] on a string; [None] is its
    [ValueError]. *)
Variable fromisoformat : string → option datetime.

Definition datetime_fromisoformat (s : string) : result datetime :=
  match fromisoformat s with
  | Some d => Ok d
  | None => Raise ValueError
  end.

(** One element of the comprehension on line 56. *)
Definition candidate_entry (c : json) : result json :=
  last_name ← py_get c "nyt_id" (JStr "");
  v ← py_getitem c "votes";
  total ← py_getitem v "total";
  Ok (JObj [("last_name", last_name); ("votes", total)]).

(** Lines 56-68: the record of one reporting unit. *)
Definition unit_record (updated_at : datetime) (race unit : json)
  : result InputRecord :=
  cs ← iter_get unit "candidates";
  candidates ← mapM candidate_entry cs;
  name ← py_get unit "name" (JStr "Unknown");
  abbrev ← py_get unit "state_abb" (JStr "Unknown");
  ev ← py_get race "electoral_votes" (JInt 0);
  total_votes ← py_get unit "total_votes" (JInt 0);
  expected ← py_get unit "total_expected_vote" (JInt 0);
  p_total ← py_get unit "precincts_total" (JInt 0);
  p_reporting ← py_get unit "precincts_reporting" (JInt 0);
  Ok {| timestamp := TsDatetime updated_at;
        state_name := name;
        state_abbrev := abbrev;
        electoral_votes := ev;
        candidates := JArr candidates;
        votes := total_votes;
        expected_votes := expected;
        precincts_total := p_total;
        precincts_reporting := p_reporting;
        counties := JObj [] |}.

(** Lines 54-69: one iteration of the loop over the races.  Without a
    string under [updated_at] there is no [replace] method to call. *)
Definition process_race (race : json) : result (list InputRecord) :=
  u ← py_get race "updated_at" JNull;
  updated_at ← match u with
               | JStr s => datetime_fromisoformat (replace_Z s)
               | _ => Raise AttributeError
               end;
  units ← iter_get race "reporting_units";
  mapM (unit_record updated_at race) units.

Definition process_json_data (json_data : json) : result (list InputRecord) :=
  races ← iter_get json_data "races";
  for_each process_race races.

(** [hasattr(datetime.datetime, "fromisoformat")] holds on every interpreter
    on which [process_json_data], which calls the method without asking, can
    run: the [strptime] branch belongs to interpreters the pipeline does not
    run on. *)
Definition parse_isoformat (timestamp_str : string) : result datetime :=
  datetime_fromisoformat timestamp_str.

(** Lines 99-102: one row of a cache entry.  Only a mapping can be unpacked
    into [row_data]. *)
Definition load_row (row : json) : result InputRecord :=
  match row with
  | JObj row_data =>
      match dict_lookup "timestamp" row_data with
      | None => Raise KeyError
      | Some (JStr s) =>
          d ← parse_isoformat s;
          InputRecord_kwargs (TsDatetime d) row_data
      | Some t => InputRecord_kwargs (TsOther t) row_data
      end
  | _ => Raise TypeError
  end.

(** Lines 98-102. *)
Definition load_rows (record : json) : result (list InputRecord) :=
  rows ← iter_get record "rows";
  mapM load_row rows.

(** Lines 91-103: what the cache has for a revision.  [Fallthrough] leaves
    the [if] and goes on to line 105; [Skipped] is the [continue] of the
    [except] clause; [Served r] is the branch of a matching version, whose
    rows are appended before its [continue] unless one of them raises. *)
Inductive cache_outcome : Type :=
| Fallthrough
| Skipped
| Served (r : result (list InputRecord)).

Definition read_cache (fs : gmap string file) (cache_path : string) : cache_outcome :=
  match fs !! cache_path with
  | None => Fallthrough
  | Some Garbled => Skipped
  | Some (Decoded record) =>
      match py_get record "version" JNull with
      | Raise e => Served (Raise e)
      | Ok v =>
          if py_eqb v (JInt CACHE_VERSION) then Served (load_rows record)
          else Fallthrough
      end
  end.

(** Lines 105-108. *)
Definition fetch_rows (E : env) (ref : string) : result (list InputRecord) :=
  blob ← git_show E ref "results.json";
  parsed ← simdjson_parse E blob;
  process_json_data (to_python_type parsed).

(** Lines 111-117. *)
Definition write_cache (fs : gmap string file) (cache_path : string)
    (rows : list InputRecord) : gmap string file :=
  let rows_for_cache := List.map row_for_cache rows in
  <[cache_path := Decoded (JObj [("version", JInt CACHE_VERSION);
                                 ("rows", JArr rows_for_cache)])]> fs.

(** Lines 88-117: the loop over the commits.  It threads the cache directory
    and the list [out]; an exception leaves the directory as it is at that
    point. *)
Fixpoint fetch_loop (E : env) (commits : list string) (fs : gmap string file)
    (out : list InputRecord) : gmap string file * result (list InputRecord) :=
  match commits with
  | [] => (fs, Ok out)
  | ref :: commits' =>
      let cache_path := cache_path ref in
      match read_cache fs cache_path with
      | Skipped => fetch_loop E commits' fs out
      | Served (Ok rows) => fetch_loop E commits' fs (out ++ rows)
      | Served (Raise e) => (fs, Raise e)
      | Fallthrough =>
          match fetch_rows E ref with
          | Raise e => (fs, Raise e)
          | Ok rows =>
              fetch_loop E commits' (write_cache fs cache_path rows) (out ++ rows)
          end
      end
  end.

(** The key function of line 119. *)
Definition sort_key (row : InputRecord) : result datetime :=
  match timestamp row with
  | TsDatetime d => Ok d
  | TsOther (JStr s) => parse_isoformat s
  | TsOther _ => Raise TypeError
  end.

(** [list.sort(key=...)]: the keys are computed first, then the rows are
    sorted by key with [<] alone, equal keys keeping their order; a
    comparison that raises ends the sort.  The sort is written as an
    insertion from the right. *)
Fixpoint insert_by_key (x : datetime * InputRecord)
    (l : list (datetime * InputRecord)) : result (list (datetime * InputRecord)) :=
  match l with
  | [] => Ok [x]
  | y :: l' =>
      lt ← datetime_lt (fst y) (fst x);
      if lt : bool then (r ← insert_by_key x l'; Ok (y :: r))
      else Ok (x :: y :: l')
  end.

Fixpoint sort_keyed (l : list (datetime * InputRecord))
  : result (list (datetime * InputRecord)) :=
  match l with
  | [] => Ok []
  | x :: l' => s ← sort_keyed l'; insert_by_key x s
  end.

Definition sort_out (out : list InputRecord) : result (list InputRecord) :=
  keyed ← mapM (λ row, k ← sort_key row; Ok (k, row)) out;
  sorted ← sort_keyed keyed;
  Ok (List.map snd sorted).

(** [grouped[key].append(row)] on a [defaultdict(list)], kept as its items in
    insertion order. *)
Fixpoint grouped_append (key : json) (row : InputRecord)
    (grouped : list (json * list InputRecord)) : list (json * list InputRecord) :=
  match grouped with
  | [] => [(key, [row])]
  | (k, rows) :: grouped' =>
      if py_eqb k key then (k, rows ++ [row]) :: grouped'
      else (k, rows) :: grouped_append key row grouped'
  end.

(** Lines 121-122; a key that is a list or a dict cannot be hashed. *)
Fixpoint group_loop (out : list InputRecord) (grouped : list (json * list InputRecord))
  : result (list (json * list InputRecord)) :=
  match out with
  | [] => Ok grouped
  | row :: out' =>
      if hashable (state_name row)
      then group_loop out' (grouped_append (state_name row) row grouped)
      else Raise TypeError
  end.

Definition fetch_all_records (E : env) (fs : gmap string file)
  : gmap string file * result (list (json * list InputRecord)) :=
  match git_commits_for E "results.json" with
  | Raise e => (fs, Raise e)
  | Ok commits =>
      match git_Repo E with
      | Raise e => (fs, Raise e)
      | Ok _ =>
          let '(fs', r) := fetch_loop E commits fs [] in
          (fs', out ← r; sorted ← sort_out out; group_loop sorted [])
      end
  end.

End Pipeline.

(** ** [fromisoformat] as documented for Python 3.7 *)

(** The strings accepted are those of the grammar
    [YYYY-MM-DD[*HH[:MM[:SS[.fff[fff]]]][+HH:MM[:SS[.ffffff]]]]], where [*] is
    any one character, and the fields read must be accepted by the
    constructors of [datetime] and [timezone]. *)
Module Py37.

Definition digit_val (c : ascii) : option Z :=
  let n := nat_of_ascii c in
  if ((48 <=? n) && (n <=? 57))%nat then Some (Z.of_nat n - 48) else None.

Fixpoint read_digits (w : nat) (acc : Z) (s : string) : option (Z * string) :=
  match w, s with
  | O, _ => Some (acc, s)
  | S w', String c s' => d ← digit_val c; read_digits w' (acc * 10 + d) s'
  | S _, EmptyString => None
  end.

Definition expect (c : ascii) (s : string) : option string :=
  match s with
  | String c' s' => if Ascii.eqb c c' then Some s' else None
  | EmptyString => None
  end.

Definition parse_date (s : string) : option (Z * Z * Z * string) :=
  '(y, s1) ← read_digits 4 0 s;
  s2 ← expect "-" s1;
  '(m, s3) ← read_digits 2 0 s2;
  s4 ← expect "-" s3;
  '(d, s5) ← read_digits 2 0 s4;
  Some (y, m, d, s5).

Definition parse_fraction (s : string) : option (Z * string) :=
  match read_digits 6 0 s with
  | Some r => Some r
  | None => '(n, rest) ← read_digits 3 0 s; Some (n * 1000, rest)
  end.

(** [HH[:MM[:SS[.fff[fff]]]]], and what follows it. *)
Definition parse_time (s : string) : option (Z * Z * Z * Z * string) :=
  '(hh, s1) ← read_digits 2 0 s;
  match expect ":" s1 with
  | None => Some (hh, 0, 0, 0, s1)
  | Some s2 =>
      '(mm, s3) ← read_digits 2 0 s2;
      match expect ":" s3 with
      | None => Some (hh, mm, 0, 0, s3)
      | Some s4 =>
          '(ss, s5) ← read_digits 2 0 s4;
          match expect "." s5 with
          | None => Some (hh, mm, ss, 0, s5)
          | Some s6 => '(us, s7) ← parse_fraction s6; Some (hh, mm, ss, us, s7)
          end
      end
  end.

Definition at_end (s : string) : bool :=
  match s with
  | EmptyString => true
  | String _ _ => false
  end.

(** [:SS[.ffffff]] up to the end of the string. *)
Definition parse_offset_seconds (s : string) : option (Z * Z) :=
  if at_end s then Some (0, 0)
  else
    s1 ← expect ":" s;
    '(ss, s2) ← read_digits 2 0 s1;
    if at_end s2 then Some (ss, 0)
    else
      s3 ← expect "." s2;
      '(us, s4) ← read_digits 6 0 s3;
      if at_end s4 then Some (ss, us) else None.

(** Nothing, or [+HH:MM[:SS[.ffffff]]] with either sign, up to the end. *)
Definition parse_offset (s : string) : option (option Z) :=
  match s with
  | EmptyString => Some None
  | String c s0 =>
      sign ← (if Ascii.eqb c "+" then Some 1
              else if Ascii.eqb c "-" then Some (-1) else None);
      '(hh, s1) ← read_digits 2 0 s0;
      s2 ← expect ":" s1;
      '(mm, s3) ← read_digits 2 0 s2;
      '(ss, us) ← parse_offset_seconds s3;
      Some (Some (sign * (((hh * 60 + mm) * 60 + ss) * 1000000 + us)))
  end.

Definition fromisoformat (date_string : string) : option datetime :=
  '(y, m, d, rest) ← parse_date date_string;
  d ← match rest with
      | EmptyString => Some (mkDatetime y m d 0 0 0 0 None)
      | String _ tstr =>
          '(hh, mm, ss, us, rest') ← parse_time tstr;
          tz ← parse_offset rest';
          Some (mkDatetime y m d hh mm ss us tz)
      end;
  if valid_datetime d then Some d else None.

End Py37.

(** What the standard library documents for [fromisoformat]: it returns
    [datetime] objects, which are valid by construction, and it is the inverse
    of [isoformat]. *)
Definition fromisoformat_laws (fromisoformat : string → option datetime) : Prop :=
  (∀ s d, fromisoformat s = Some d → valid_datetime d = true) ∧
  (∀ d, valid_datetime d = true → fromisoformat (isoformat d) = Some d).

(** ** Orders and keys used to state the properties *)

(** The instant of an aware datetime; the wall clock of a naive one. *)
Definition instant (d : datetime) : Z :=
  match utcoffset d with
  | Some off => wall_us d - off
  | None => wall_us d
  end.

Definition aware (d : datetime) : bool :=
  match utcoffset d with
  | Some _ => true
  | None => false
  end.

(** [field_or default key items] is [dict(items).get(key, default)]. *)
Definition field_or (default : json) (key : string) (items : list (string * json))
  : json :=
  match dict_lookup key items with
  | Some v => v
  | None => default
  end.

(** The records of the data model: the timestamp is a point in time. *)
Definition timestamped (row : InputRecord) : Prop :=
  ∃ d, timestamp row = TsDatetime d ∧ valid_datetime d = true.





Definition units_of (race : json) : list json :=
  match iter_get race "reporting_units" with
  | Ok units => units
  | Raise _ => []
  end.

Definition unit_name (unit : json) : json :=
  match unit with
  | JObj u => field_or (JStr "Unknown") "name" u
  | _ => JNull
  end.


(** The records of a revision, as the cache has them. *)
Definition revision_rows (fromisoformat : string → option datetime)
    (fs : gmap string file) (ref : string) : list InputRecord :=
  match read_cache fromisoformat fs (cache_path ref) with
  | Served (Ok rows) => rows
  | _ => []
  end.

(** Rows paired with their sort keys. *)
Abbreviation keyed := (datetime * InputRecord)%type.

Definition key_instant (x : keyed) : Z := instant x.1.

Definition ascending : list keyed → Prop :=
  StronglySorted (λ x y, key_instant x ≤ key_instant y).

Definition at_instant (t : Z) (x : keyed) : bool := key_instant x =? t.

Definition same_awareness (w : bool) (l : list keyed) : Prop :=
  Forall (λ x, aware x.1 = w) l.

(** The timestamp of a Record as a point in time, read off the field
    itself: the instant of the datetime it holds. *)
Definition timestamp_instant (row : InputRecord) : Z :=
  match timestamp row with
  | TsDatetime d => instant d
  | TsOther _ => 0
  end.

(** The instant of the key a row is sorted by. *)
Definition row_instant (fromisoformat : string → option datetime)
    (row : InputRecord) : Z :=
  match sort_key fromisoformat row with
  | Ok d => instant d
  | Raise _ => 0
  end.

Definition has_key (fromisoformat : string → option datetime) (x : keyed) : Prop :=
  sort_key fromisoformat x.2 = Ok x.1.

(** The value a [dict] files a hashable key under: [True] and [False] are
    the keys 1 and 0. *)
Definition dict_key (x : json) : json :=
  match x with
  | JBool b => JInt (Z.b2z b)
  | _ => x
  end.

(** The items of the Grouped Series. *)
Abbreviation group := (json * list InputRecord)%type.

Definition in_group (k : json) (row : InputRecord) : bool :=
  py_eqb k (state_name row).

Definition hashable_rows (rows : list InputRecord) : Prop :=
  Forall (λ row, hashable (state_name row) = true) rows.

(** What the dict holds once the rows [done] have been appended. *)
Record grouping_of (done : list InputRecord) (grouped : list group) : Prop := {
  grouping_keys : NoDup (List.map (λ g : group, dict_key g.1) grouped);
  grouping_hashable : Forall (λ g : group, hashable g.1 = true) grouped;
  grouping_rows :
    Forall (λ g : group, g.2 = List.filter (in_group g.1) done) grouped;
  grouping_total :
    Forall (λ row, Exists (λ g : group, in_group g.1 row = true) grouped) done
}.

(** ** A two-revision history, the example of the specification *)

Module Example.

Definition candidate (id : string) (n : Z) : json :=
  JObj [("nyt_id", JStr id); ("votes", JObj [("total", JInt n)])].

Definition nevada (updated_at : string) (x y : Z) : json :=
  JObj [("races", JArr [
    JObj [("updated_at", JStr updated_at);
          ("electoral_votes", JInt 6);
          ("reporting_units", JArr [
            JObj [("name", JStr "Nevada");
                  ("state_abb", JStr "NV");
                  ("candidates", JArr [candidate "X" x; candidate "Y" y]);
                  ("total_votes", JInt (x + y))]])]])].

(** The Record of that document. *)
Definition nevada_row (h x y : Z) : InputRecord := {|
  timestamp := TsDatetime (mkDatetime 2020 11 4 h 0 0 0 (Some 0));
  state_name := JStr "Nevada";
  state_abbrev := JStr "NV";
  electoral_votes := JInt 6;
  candidates := JArr [JObj [("last_name", JStr "X"); ("votes", JInt x)];
                      JObj [("last_name", JStr "Y"); ("votes", JInt y)]];
  votes := JInt (x + y);
  expected_votes := JInt 0;
  precincts_total := JInt 0;
  precincts_reporting := JInt 0;
  counties := JObj []
|}.

Definition rev1 : string := "a1f3".
Definition rev2 : string := "b2c4".

(** [git log] lists the newest commit first; a blob stands for itself and
    the parser knows the two documents. *)
Definition history : env := {|
  git_log := λ _, Ok [rev2; rev1];
  git_Repo := Ok ();
  git_blob := λ ref _,
    if String.eqb ref rev1 || String.eqb ref rev2 then Ok ref else Raise KeyError;
  simdjson_parse := λ blob,
    if String.eqb blob rev1 then Ok (nevada "2020-11-04T10:00:00Z" 100 80)
    else if String.eqb blob rev2 then Ok (nevada "2020-11-04T11:00:00Z" 150 90)
    else Raise ValueError
|}.

(** The same history with a commit in between whose content cannot be
    parsed. *)
Definition rev3 : string := "c3d5".

Definition history_bad : env := {|
  git_log := λ _, Ok [rev2; rev3; rev1];
  git_Repo := Ok ();
  git_blob := λ ref _, Ok ref;
  simdjson_parse := simdjson_parse history
|}.

(** The history [history] when nothing can be read from git any more. *)
Definition history_offline : env := {|
  git_log := git_log history;
  git_Repo := Ok ();
  git_blob := λ _ _, Raise GitError;
  simdjson_parse := λ _, Raise ValueError
|}.



(** A document that leaves out every field with a default, and names the
    same unit in two races, with a race without units in between. *)
Definition anonymous : list (string * json) :=
  [("votes", JObj [("total", JInt 7)])].

Definition sparse_unit : list (string * json) :=
  [("candidates", JArr [JObj anonymous; candidate "Y" 3])].

Definition sparse_race1 : list (string * json) :=
  [("updated_at", JStr "2020-11-04T10:00:00Z");
   ("reporting_units", JArr [JObj sparse_unit])].

Definition sparse_race2 : list (string * json) :=
  [("updated_at", JStr "2020-11-04T10:30:00Z")].

Definition sparse_race3 : list (string * json) :=
  [("updated_at", JStr "2020-11-04T11:00:00Z");
   ("reporting_units", JArr [JObj []])].

Definition sparse : json :=
  JObj [("races", JArr [JObj sparse_race1; JObj sparse_race2; JObj sparse_race3])].

Definition sparse_row (h : Z) (entries : list json) : InputRecord := {|
  timestamp := TsDatetime (mkDatetime 2020 11 4 h 0 0 0 (Some 0));
  state_name := JStr "Unknown";
  state_abbrev := JStr "Unknown";
  electoral_votes := JInt 0;
  candidates := JArr entries;
  votes := JInt 0;
  expected_votes := JInt 0;
  precincts_total := JInt 0;
  precincts_reporting := JInt 0;
  counties := JObj []
|}.

Definition sparse_entries : list json :=
  [JObj [("last_name", JStr ""); ("votes", JInt 7)];
   JObj [("last_name", JStr "Y"); ("votes", JInt 3)]].

End Example.

(** ** The figures of the reports and the entry point *)

Definition BATTLEGROUND_STATES : list string :=
  ["Michigan"; "Arizona"; "Georgia"; "North Carolina"; "Nevada"; "Pennsylvania";
   "Virginia"; "Wisconsin"].

(** [bool(x)]. *)
Definition py_truthy (x : json) : bool :=
  match x with
  | JNull => false
  | JBool b => b
  | JInt z => negb (z =? 0)
  | JStr s => negb (String.eqb s "")
  | JArr items => match items with [] => false | _ => true end
  | JObj items => match items with [] => false | _ => true end
  end.

(** The integer a number stands for in arithmetic. *)
Definition py_number (x : json) : option Z :=
  match x with
  | JInt z => Some z
  | JBool b => Some (Z.b2z b)
  | _ => None
  end.

(** [x - y]: only numbers can be subtracted. *)
Definition py_sub (x y : json) : result json :=
  match py_number x, py_number y with
  | Some a, Some b => Ok (JInt (a - b))
  | _, _ => Raise TypeError
  end.

(** [x > 0]: only a number can be compared with an [int]. *)
Definition py_positive (x : json) : result bool :=
  match py_number x with
  | Some a => Ok (0 <? a)
  | None => Raise TypeError
  end.

Section Figures.

(** [sorted(..., key=..., reverse=True)] once the keys are computed: it
    is given the items with their keys.  Which comparisons the sort makes,
    and so which exception it raises on keys that cannot all be compared,
    is the library's affair. *)
Variable sorted_reverse : list (json * json) → result (list json).

(** Lines 129-135 of [string_summary], which lines 230-236 of [html_table]
    repeat: the names of the leading and of the trailing candidate, and the
    vote differential. *)
Definition candidate_figures (record : InputRecord) : result (json * json * json) :=
  cs ← py_iter (candidates record);
  keyed ← mapM (λ x, k ← py_getitem x "votes"; Ok (k, x)) cs;
  sorted_candidates ← sorted_reverse keyed;
  let leading_candidate :=
    match sorted_candidates with c :: _ => c | [] => JNull end in
  let trailing_candidate :=
    match sorted_candidates with _ :: c :: _ => c | _ => JNull end in
  leading_candidate_name ←
    (if py_truthy leading_candidate
     then py_getitem leading_candidate "last_name" else Ok (JStr "N/A"));
  trailing_candidate_name ←
    (if py_truthy trailing_candidate
     then py_getitem trailing_candidate "last_name" else Ok (JStr "N/A"));
  vote_differential ←
    (if py_truthy leading_candidate && py_truthy trailing_candidate
     then a ← py_getitem leading_candidate "votes";
          b ← py_getitem trailing_candidate "votes";
          py_sub a b
     else Ok (JInt 0));
  Ok (leading_candidate_name, trailing_candidate_name, vote_differential).

End Figures.

(** Line 137 of [string_summary], which line 239 of [html_table] repeats. *)
Definition votes_remaining (record : InputRecord) : result json :=
  positive ← py_positive (expected_votes record);
  if positive : bool then py_sub (expected_votes record) (votes record)
  else Ok (JStr "Unknown").

(** [key in records] and [records[key]] in one lookup: the test of line 301
    keeps the [defaultdict] from adding the key. *)
Definition grouped_lookup (key : json) (records : list group)
  : option (list InputRecord) :=
  snd <$> List.find (λ g : group, py_eqb g.1 key) records.

(** Line 301: the dict comprehension over [BATTLEGROUND_STATES]. *)
Definition battlegrounds_summarized (records : list group) : list group :=
  flat_map (λ state,
              match grouped_lookup (JStr state) records with
              | Some rows => [(JStr state, rows)]
              | None => []
              end) BATTLEGROUND_STATES.

(** Lines 302-303: [list(d.keys())]. *)
Definition states_updated (summarized : list group) : list json :=
  List.map fst summarized.

(** What [sorted] does when every key is an integer: it returns the items
    in descending order of key, those of equal key in the order given. *)
Definition votes_key (x : json * json) : Z :=
  match x.1 with
  | JInt n => n
  | _ => 0
  end.

Definition sorts_integer_keys
    (sorted_reverse : list (json * json) → result (list json)) : Prop :=
  ∀ keyed, Forall (λ x : json * json, ∃ n, x.1 = JInt n) keyed →
    ∃ l, sorted_reverse keyed = Ok (List.map snd l) ∧
         Permutation keyed l ∧
         StronglySorted (λ a b, votes_key b ≤ votes_key a) l ∧
         ∀ t, List.filter (λ x, votes_key x =? t) l
              = List.filter (λ x, votes_key x =? t) keyed.

(** A stable insertion sort in descending order, for keys that are
    numbers. *)
Module Insertion.

Fixpoint insert (x : json * json) (l : list (json * json))
  : result (list (json * json)) :=
  match l with
  | [] => Ok [x]
  | y :: l' =>
      match py_number x.1, py_number y.1 with
      | Some a, Some b =>
          if a <? b then (r ← insert x l'; Ok (y :: r)) else Ok (x :: y :: l')
      | _, _ => Raise TypeError
      end
  end.

Fixpoint sort (l : list (json * json)) : result (list (json * json)) :=
  match l with
  | [] => Ok []
  | x :: l' => s ← sort l'; insert x s
  end.

Definition sorted_reverse (keyed : list (json * json)) : result (list json) :=
  s ← sort keyed; Ok (List.map snd s).

End Insertion.

(** A candidate entry with a name and an integer count, its count and its
    name. *)
Definition counted (c : json) : Prop :=
  ∃ items name n, c = JObj items ∧ dict_lookup "last_name" items = Some name ∧
                  dict_lookup "votes" items = Some (JInt n).

Definition entry_votes (c : json) : Z :=
  match c with
  | JObj items =>
      match dict_lookup "votes" items with
      | Some (JInt n) => n
      | _ => 0
      end
  | _ => 0
  end.

Definition entry_name (c : json) : json :=
  match c with
  | JObj items => field_or JNull "last_name" items
  | _ => JNull
  end.

Definition keyed_entry (c : json) : json * json := (JInt (entry_votes c), c).

(** ** Further vocabulary *)

(** Strings without a path separator, as the hashes [git log] prints. *)
Fixpoint sep_free (s : string) : bool :=
  match s with
  | EmptyString => true
  | String c s' => negb (Ascii.eqb c "/"%char) && sep_free s'
  end.


(** The shape of the Records the normalizer builds: a datetime, an empty
    [counties], and entries with the two keys lines 129-135 read. *)
Definition entry_shaped (entry : json) : Prop :=
  ∃ name count, entry = JObj [("last_name", name); ("votes", count)].

Definition record_shaped (row : InputRecord) : Prop :=
  (∃ d, timestamp row = TsDatetime d) ∧
  counties row = JObj [] ∧
  ∃ entries, candidates row = JArr entries ∧ Forall entry_shaped entries.

(** A group that is filed under the key of its first Record. *)
Definition headed (g : group) : Prop :=
  ∃ row rest, g.2 = row :: rest ∧ g.1 = state_name row.

(** * Properties *)

(** ** The exception monad *)

Ltac unfold_result :=
  unfold mbind, result_bind, mret, result_ret in *.

Lemma bind_Ok {A B : Type} (m : result A) (k : A → result B) (b : B) :
  m ≫= k = Ok b → ∃ a, m = Ok a ∧ k a = Ok b.
Proof. destruct m as [a|e]; unfold_result; [eauto | discriminate]. Qed.

Lemma mapM_Ok_Forall2 {A B : Type} (f : A → result B) (l : list A) (k : list B) :
  mapM f l = Ok k ↔ Forall2 (λ x y, f x = Ok y) l k.
Proof.
  revert k. induction l as [|x l IH]; intros k; simpl.
  - split.
    + intros [= <-]. constructor.
    + intros H. inversion H. reflexivity.
  - split.
    + intros H. apply bind_Ok in H as (y & Hy & H).
      apply bind_Ok in H as (k' & Hk' & [= <-]).
      constructor; [assumption | by apply IH].
    + intros H. inversion H as [|? y ? k' Hy Hk']; subst.
      apply IH in Hk'. rewrite Hy, Hk'. reflexivity.
Qed.

Lemma mapM_Raise_elem {A B : Type} (f : A → result B) (l : list A) (x : A) (e : exn) :
  In x l → f x = Raise e → ∃ e', mapM f l = Raise e'.
Proof.
  induction l as [|y l IH]; simpl; [tauto|].
  intros [->|Hin] Hx.
  - rewrite Hx. eauto.
  - destruct (f y) as [b|e0]; [|eauto].
    destruct (IH Hin Hx) as [e' ->]. eauto.
Qed.

Lemma for_each_app {A B : Type} (f : A → result (list B)) (l1 l2 : list A) :
  for_each f (l1 ++ l2) =
  (ys ← for_each f l1; zs ← for_each f l2; Ok (ys ++ zs)).
Proof.
  induction l1 as [|x l1 IH]; simpl.
  - destruct (for_each f l2); reflexivity.
  - destruct (f x) as [ys|e]; [|reflexivity]. unfold_result.
    unfold_result. rewrite IH.
    destruct (for_each f l1) as [ys1|e]; [|reflexivity].
    destruct (for_each f l2) as [ys2|e]; [|reflexivity].
    by rewrite app_assoc.
Qed.


(** ** The cache round trip *)

Section Roundtrip.

Variable fromisoformat : string → option datetime.
Hypothesis laws : fromisoformat_laws fromisoformat.

Lemma load_row_row_for_cache (row : InputRecord) :
  timestamped row → load_row fromisoformat (row_for_cache row) = Ok row.
Proof.
  intros (d & Hts & Hd). destruct row as [ts sn sa ev cs vs xv pt pr co].
  simpl in Hts. subst ts. unfold row_for_cache, load_row. simpl.
  unfold parse_isoformat, datetime_fromisoformat.
  rewrite (proj2 laws d Hd). reflexivity.
Qed.

Lemma load_rows_rows_for_cache (rows : list InputRecord) :
  Forall timestamped rows →
  mapM (load_row fromisoformat) (List.map row_for_cache rows) = Ok rows.
Proof.
  intros H. apply mapM_Ok_Forall2.
  induction H as [|row rows Hrow _ IH]; simpl; constructor; [|exact IH].
  by apply load_row_row_for_cache.
Qed.

Lemma read_cache_write_cache (fs : gmap string file) (path : string)
    (rows : list InputRecord) :
  Forall timestamped rows →
  read_cache fromisoformat (write_cache fs path rows) path = Served (Ok rows).
Proof.
  intros H. unfold read_cache, write_cache. rewrite lookup_insert_eq. simpl.
  unfold load_rows. simpl. by rewrite load_rows_rows_for_cache.
Qed.

End Roundtrip.

(** ** The normalizer *)

Section Normalizer.

Variable fromisoformat : string → option datetime.

Lemma py_get_field_or (items : list (string * json)) (key : string) (default : json) :
  py_get (JObj items) key default = Ok (field_or default key items).
Proof. unfold py_get, field_or. by destruct (dict_lookup key items). Qed.





End Normalizer.

(** ** What a successful normalization returns *)

Section NormalizerOutput.

Variable fromisoformat : string → option datetime.

Lemma for_each_Ok_inv {A B : Type} (f : A → result (list B)) (l : list A)
    (ys : list B) :
  for_each f l = Ok ys →
  ∃ per, Forall2 (λ x zs, f x = Ok zs) l per ∧ ys = concat per.
Proof.
  revert ys. induction l as [|x l IH]; simpl; intros ys H.
  - injection H as <-. exists []. split; [constructor | reflexivity].
  - apply bind_Ok in H as (zs & Hx & H).
    apply bind_Ok in H as (ws & Hl & [= <-]).
    destruct (IH ws Hl) as (per & Hper & ->).
    exists (zs :: per). split; [by constructor | reflexivity].
Qed.

Lemma py_get_Ok_inv (x : json) (key : string) (default v : json) :
  py_get x key default = Ok v →
  ∃ items, x = JObj items ∧ v = field_or default key items.
Proof.
  destruct x; try discriminate. rewrite py_get_field_or.
  intros [= <-]. eauto.
Qed.

Lemma unit_record_Ok_inv (d : datetime) (race unit : json) (row : InputRecord) :
  unit_record d race unit = Ok row →
  timestamp row = TsDatetime d ∧ state_name row = unit_name unit.
Proof.
  unfold unit_record, iter_get. intros H.
  apply bind_Ok in H as (cs & Hcs & H).
  apply bind_Ok in Hcs as (l & Hl & _).
  apply py_get_Ok_inv in Hl as (u & -> & _).
  apply bind_Ok in H as (entries & _ & H).
  rewrite !py_get_field_or in H. cbn -[py_get] in H.
  apply bind_Ok in H as (ev & _ & H).
  repeat (apply bind_Ok in H as (? & _ & H)).
  injection H as <-. split; reflexivity.
Qed.

Lemma process_race_Ok_inv (race : json) (rows : list InputRecord) :
  process_race fromisoformat race = Ok rows →
  ∃ s d, py_get race "updated_at" JNull = Ok (JStr s) ∧
         fromisoformat (replace_Z s) = Some d ∧
         Forall (λ row, timestamp row = TsDatetime d) rows ∧
         List.map state_name rows = List.map unit_name (units_of race).
Proof.
  unfold process_race. intros H.
  apply bind_Ok in H as (u & Hu & H).
  apply bind_Ok in H as (d & Hd & H).
  apply bind_Ok in H as (units & Hunits & H).
  destruct u as [| | |s| |]; try discriminate.
  unfold datetime_fromisoformat in Hd.
  destruct (fromisoformat (replace_Z s)) as [d'|] eqn:Hs; [|discriminate].
  injection Hd as ->. exists s, d. split; [assumption|]. split; [assumption|].
  unfold units_of. rewrite Hunits.
  apply mapM_Ok_Forall2 in H. clear Hunits.
  induction H as [|unit row units rows Hrow _ [IH1 IH2]]; simpl.
  - split; [constructor | reflexivity].
  - apply unit_record_Ok_inv in Hrow as [Hts Hname].
    split; [by constructor | by rewrite Hname, IH2].
Qed.


Lemma process_json_data_timestamped (json_data : json) (rows : list InputRecord) :
  (∀ s d, fromisoformat s = Some d → valid_datetime d = true) →
  process_json_data fromisoformat json_data = Ok rows →
  Forall timestamped rows.
Proof.
  intros Hvalid. unfold process_json_data. intros H.
  apply bind_Ok in H as (races & _ & H).
  apply for_each_Ok_inv in H as (per & Hper & ->).
  induction Hper as [|race rs races per Hrace _ IH]; simpl; [constructor|].
  apply Forall_app. split; [|exact IH].
  apply process_race_Ok_inv in Hrace as (s & d & _ & Hd & Hts & _).
  eapply Forall_impl; [exact Hts|]. intros row Hrow. exists d.
  split; [assumption | by eapply Hvalid].
Qed.


End NormalizerOutput.

(** ** The loop over the commits and the cache directory *)

Section Loop.

Variable fromisoformat : string → option datetime.
Variable E : env.

Lemma fetch_loop_cons (ref : string) (commits : list string)
    (fs : gmap string file) (out : list InputRecord) :
  fetch_loop fromisoformat E (ref :: commits) fs out =
  match read_cache fromisoformat fs (cache_path ref) with
  | Skipped => fetch_loop fromisoformat E commits fs out
  | Served (Ok rows) => fetch_loop fromisoformat E commits fs (out ++ rows)
  | Served (Raise e) => (fs, Raise e)
  | Fallthrough =>
      match fetch_rows fromisoformat E ref with
      | Raise e => (fs, Raise e)
      | Ok rows =>
          fetch_loop fromisoformat E commits
            (write_cache fs (cache_path ref) rows) (out ++ rows)
      end
  end.
Proof. reflexivity. Qed.

Lemma read_cache_ext (fs fs' : gmap string file) (p : string) :
  fs !! p = fs' !! p →
  read_cache fromisoformat fs p = read_cache fromisoformat fs' p.
Proof. unfold read_cache. by intros ->. Qed.

Lemma write_cache_lookup_ne (fs : gmap string file) (p q : string)
    (rows : list InputRecord) :
  p ≠ q → write_cache fs p rows !! q = fs !! q.
Proof. intros H. unfold write_cache. by rewrite lookup_insert_ne. Qed.

(** The loop writes only where the cache lookup fell through: an entry that
    is garbled, or has the current version, stays as it is. *)
Lemma fetch_loop_settled (commits : list string) (fs : gmap string file)
    (out : list InputRecord) (p : string) :
  read_cache fromisoformat fs p ≠ Fallthrough →
  (fetch_loop fromisoformat E commits fs out).1 !! p = fs !! p.
Proof.
  revert fs out. induction commits as [|ref commits IH]; intros fs out Hp.
  - reflexivity.
  - rewrite fetch_loop_cons.
    destruct (read_cache fromisoformat fs (cache_path ref)) as [| |[rows|e]] eqn:Href.
    + destruct (fetch_rows fromisoformat E ref) as [rows|e]; [|reflexivity].
      assert (cache_path ref ≠ p) as Hne by (intros <-; contradiction).
      rewrite IH.
      * by apply write_cache_lookup_ne.
      * erewrite read_cache_ext; [exact Hp|].
        by apply write_cache_lookup_ne.
    + by apply IH.
    + by apply IH.
    + reflexivity.
Qed.

Lemma fetch_loop_written (commits : list string) (fs : gmap string file)
    (out : list InputRecord) (p : string) :
  (fetch_loop fromisoformat E commits fs out).1 !! p ≠ fs !! p →
  read_cache fromisoformat fs p = Fallthrough.
Proof.
  intros H. destruct (read_cache fromisoformat fs p) eqn:Hp; [reflexivity| |];
    exfalso; apply H; apply fetch_loop_settled; rewrite Hp; discriminate.
Qed.

(** A corrupt entry: the revision is passed over. *)
Lemma fetch_loop_garbled (ref : string) (commits : list string)
    (fs : gmap string file) (out : list InputRecord) :
  fs !! cache_path ref = Some Garbled →
  fetch_loop fromisoformat E (ref :: commits) fs out =
  fetch_loop fromisoformat E commits fs out.
Proof.
  intros H. rewrite fetch_loop_cons. unfold read_cache. rewrite H. reflexivity.
Qed.

(** An entry whose rows cannot be loaded ends the loop, wherever its commit
    stands in the history. *)
Lemma fetch_loop_served_raise (commits : list string) (ref : string)
    (fs : gmap string file) (out : list InputRecord) (e : exn) :
  In ref commits →
  read_cache fromisoformat fs (cache_path ref) = Served (Raise e) →
  ∃ e', (fetch_loop fromisoformat E commits fs out).2 = Raise e'.
Proof.
  revert fs out. induction commits as [|c commits IH]; intros fs out Hin Href;
    [destruct Hin|].
  assert (∀ fs' out', fs' !! cache_path ref = fs !! cache_path ref →
            In ref commits →
            ∃ e', (fetch_loop fromisoformat E commits fs' out').2 = Raise e')
    as Hrest.
  { intros fs' out' Hsame Hin'. apply IH; [assumption|].
    by rewrite (read_cache_ext fs' fs). }
  rewrite fetch_loop_cons. destruct Hin as [->|Hin].
  { rewrite Href. simpl. eauto. }
  destruct (read_cache fromisoformat fs (cache_path c)) as [| |[rows|e0]] eqn:Hc.
  - destruct (fetch_rows fromisoformat E c) as [rows|e0]; [|simpl; eauto].
    apply Hrest; [|assumption]. apply write_cache_lookup_ne.
    intros Heq. rewrite Heq, Href in Hc. discriminate.
  - by apply Hrest.
  - by apply Hrest.
  - simpl. eauto.
Qed.

(** A revision that cannot be fetched or normalized ends the loop with its
    exception. *)
Lemma fetch_loop_fetch_raise (pre post : list string) (k : string)
    (fs fs1 : gmap string file) (out out1 : list InputRecord) (e : exn) :
  fetch_loop fromisoformat E pre fs out = (fs1, Ok out1) →
  read_cache fromisoformat fs1 (cache_path k) = Fallthrough →
  fetch_rows fromisoformat E k = Raise e →
  fetch_loop fromisoformat E (pre ++ k :: post) fs out = (fs1, Raise e).
Proof.
  revert fs out. induction pre as [|c pre IH]; intros fs out Hpre Hk He.
  - injection Hpre as -> ->. simpl app. rewrite fetch_loop_cons, Hk, He.
    reflexivity.
  - simpl app. rewrite fetch_loop_cons in *.
    destruct (read_cache fromisoformat fs (cache_path c)) as [| |[rows|e0]].
    + destruct (fetch_rows fromisoformat E c) as [rows|e0]; [|discriminate].
      by apply IH.
    + by apply IH.
    + by apply IH.
    + discriminate.
Qed.

End Loop.

Section Idempotence.

Variable fromisoformat : string → option datetime.
Hypothesis laws : fromisoformat_laws fromisoformat.
Variable E : env.

Lemma fetch_rows_timestamped (ref : string) (rows : list InputRecord) :
  fetch_rows fromisoformat E ref = Ok rows → Forall timestamped rows.
Proof.
  unfold fetch_rows. intros H.
  apply bind_Ok in H as (blob & _ & H). apply bind_Ok in H as (parsed & _ & H).
  eapply process_json_data_timestamped; [exact (proj1 laws) | exact H].
Qed.

Lemma fetch_loop_idempotent (commits : list string) (fs : gmap string file)
    (out : list InputRecord) :
  fetch_loop fromisoformat E commits (fetch_loop fromisoformat E commits fs out).1 out
  = fetch_loop fromisoformat E commits fs out.
Proof.
  revert fs out. induction commits as [|ref commits IH]; intros fs out;
    [reflexivity|].
  rewrite (fetch_loop_cons _ _ _ _ fs).
  destruct (read_cache fromisoformat fs (cache_path ref)) as [| |[rows|e]] eqn:Href.
  - destruct (fetch_rows fromisoformat E ref) as [rows|e] eqn:Hrows.
    + pose proof (read_cache_write_cache fromisoformat laws fs (cache_path ref) rows
                    (fetch_rows_timestamped ref rows Hrows)) as Hserved.
      set (fs1 := write_cache fs (cache_path ref) rows) in *.
      rewrite fetch_loop_cons.
      rewrite (read_cache_ext fromisoformat _ fs1).
      * rewrite Hserved. apply IH.
      * apply fetch_loop_settled. rewrite Hserved. discriminate.
    + cbn [fst]. rewrite fetch_loop_cons, Href, Hrows. reflexivity.
  - rewrite fetch_loop_cons. rewrite (read_cache_ext fromisoformat _ fs).
    + rewrite Href. apply IH.
    + apply fetch_loop_settled. rewrite Href. discriminate.
  - rewrite fetch_loop_cons. rewrite (read_cache_ext fromisoformat _ fs).
    + rewrite Href. apply IH.
    + apply fetch_loop_settled. rewrite Href. discriminate.
  - cbn [fst]. rewrite fetch_loop_cons, Href. reflexivity.
Qed.

End Idempotence.

(** ** The sort of line 119 *)

Lemma datetime_lt_instant (a b : datetime) :
  aware a = aware b → datetime_lt a b = Ok (instant a <? instant b).
Proof.
  unfold aware, datetime_lt, instant.
  destruct (utcoffset a), (utcoffset b); (reflexivity || discriminate).
Qed.

Section Sort.

Variable w : bool.

Lemma insert_by_key_spec (x : keyed) (l : list keyed) :
  aware x.1 = w → same_awareness w l →
  ∃ l1 l2, l = l1 ++ l2 ∧ insert_by_key x l = Ok (l1 ++ x :: l2) ∧
           Forall (λ y, key_instant y < key_instant x) l1 ∧
           match l2 with
           | [] => True
           | y :: _ => key_instant x ≤ key_instant y
           end.
Proof.
  intros Hx. induction 1 as [|y l Hy Hl IH]; simpl.
  - exists [], []. repeat split; constructor.
  - rewrite datetime_lt_instant by congruence. simpl.
    destruct (instant y.1 <? instant x.1) eqn:Hlt.
    + destruct IH as (l1 & l2 & -> & -> & Hl1 & Hl2).
      exists (y :: l1), l2. repeat split; [|assumption].
      constructor; [|assumption]. unfold key_instant. lia.
    + exists [], (y :: l). repeat split; [constructor|].
      unfold key_instant. lia.
Qed.

Lemma filter_none {A : Type} (p : A → bool) (l : list A) :
  Forall (λ x, p x = false) l → List.filter p l = [].
Proof. induction 1 as [|x l Hx _ IH]; simpl; [|rewrite Hx]; auto. Qed.

Lemma sort_keyed_spec (l : list keyed) :
  same_awareness w l →
  ∃ s, sort_keyed l = Ok s ∧ Permutation l s ∧ ascending s ∧
       ∀ t, List.filter (at_instant t) s = List.filter (at_instant t) l.
Proof.
  induction 1 as [|x l Hx Hl IH]; simpl.
  - exists []. repeat split; constructor.
  - destruct IH as (s & -> & Hperm & Hasc & Hstable). simpl.
    assert (same_awareness w s) as Hs.
    { unfold same_awareness. rewrite <- Hperm. exact Hl. }
    destruct (insert_by_key_spec x s Hx Hs) as (l1 & l2 & -> & -> & Hl1 & Hl2).
    eexists. split; [reflexivity|]. split; [|split].
    + rewrite Hperm. apply Permutation_middle.
    + unfold ascending in *. clear Hstable Hperm Hs.
      induction l1 as [|y l1 IH1]; simpl in *.
      * constructor; [assumption|]. destruct l2 as [|z l2]; [constructor|].
        inversion Hasc as [|? ? _ Hz]; subst. constructor; [assumption|].
        eapply Forall_impl; [exact Hz|]. simpl. intros; lia.
      * inversion Hasc as [|? ? Hrest Hy]; subst.
        inversion Hl1 as [|? ? Hyx Hl1']; subst.
        constructor; [by apply IH1|].
        apply Forall_app in Hy as [Hy1 Hy2]. apply Forall_app. split; [assumption|].
        constructor; [lia | assumption].
    + intros t. rewrite <- Hstable. rewrite !List.filter_app. simpl.
      destruct (at_instant t x) eqn:Hxt; [|reflexivity].
      rewrite (filter_none (at_instant t) l1); [reflexivity|].
      eapply Forall_impl; [exact Hl1|]. simpl. intros y Hy.
      unfold at_instant in *. lia.
Qed.

End Sort.

Section SortOut.

Variable fromisoformat : string → option datetime.

Lemma has_key_instant (x : datetime * InputRecord) :
  has_key fromisoformat x → row_instant fromisoformat x.2 = key_instant x.
Proof. unfold has_key, row_instant, key_instant. by intros ->. Qed.

Lemma keyed_rows (out : list InputRecord) (keys : list datetime) :
  mapM (sort_key fromisoformat) out = Ok keys →
  ∃ keyed,
    mapM (λ row, k ← sort_key fromisoformat row; Ok (k, row)) out = Ok keyed ∧
    List.map snd keyed = out ∧ List.map fst keyed = keys ∧ Forall (has_key fromisoformat) keyed.
Proof.
  intros H. apply mapM_Ok_Forall2 in H.
  induction H as [|row k out keys Hk _ (keyed & Hkeyed & Hout & Hkeys & Hhas)].
  - exists []. repeat split; constructor.
  - exists ((k, row) :: keyed). simpl. rewrite Hk. simpl. rewrite Hkeyed. simpl.
    rewrite Hout, Hkeys. repeat split. by constructor.
Qed.

Lemma filter_map_snd (p : InputRecord → bool) (l : list (datetime * InputRecord)) :
  List.filter p (List.map snd l) = List.map snd (List.filter (λ x, p x.2) l).
Proof.
  induction l as [|x l IH]; simpl; [reflexivity|].
  destruct (p x.2); simpl; by rewrite IH.
Qed.

Lemma filter_at_instant (t : Z) (l : list (datetime * InputRecord)) :
  Forall (has_key fromisoformat) l →
  List.filter (λ x, row_instant fromisoformat x.2 =? t) l = List.filter (at_instant t) l.
Proof.
  induction 1 as [|x l Hx _ IH]; simpl; [reflexivity|].
  unfold at_instant at 1. rewrite (has_key_instant x Hx), IH. reflexivity.
Qed.

Lemma sort_out_spec (out : list InputRecord) (keys : list datetime) (w : bool) :
  mapM (sort_key fromisoformat) out = Ok keys →
  Forall (λ k, aware k = w) keys →
  ∃ sorted,
    sort_out fromisoformat out = Ok sorted ∧
    Permutation out sorted ∧
    StronglySorted (λ a b, row_instant fromisoformat a ≤ row_instant fromisoformat b) sorted ∧
    ∀ t, List.filter (λ row, row_instant fromisoformat row =? t) sorted =
         List.filter (λ row, row_instant fromisoformat row =? t) out.
Proof.
  intros Hkeys Haware.
  destruct (keyed_rows out keys Hkeys) as (keyed & Hkeyed & Hout & Hfst & Hhas).
  assert (same_awareness w keyed) as Hsame.
  { unfold same_awareness. subst keys. by apply Forall_map in Haware. }
  destruct (sort_keyed_spec w keyed Hsame) as (s & Hs & Hperm & Hasc & Hstable).
  assert (Forall (has_key fromisoformat) s) as Hhas' by (by rewrite <- Hperm).
  exists (List.map snd s). unfold sort_out. rewrite Hkeyed. simpl. rewrite Hs. simpl.
  split; [reflexivity|]. split; [|split].
  - rewrite <- Hout. by apply Permutation_map.
  - clear Hs Hperm Hstable. induction Hasc as [|x s _ IH Hx]; simpl; constructor.
    + apply IH. by inversion Hhas'.
    + inversion Hhas' as [|? ? Hkx Hks]; subst. apply Forall_map.
      apply Forall_forall. intros y Hy.
      rewrite (has_key_instant x Hkx).
      rewrite (has_key_instant y); [|by eapply Forall_forall in Hks].
      by eapply Forall_forall in Hx.
  - intros t. rewrite <- Hout, !filter_map_snd, !filter_at_instant by assumption.
    by rewrite Hstable.
Qed.

End SortOut.

(** ** The grouping of lines 120-122 *)

Lemma py_eqb_dict_key (x y : json) :
  hashable x = true → hashable y = true →
  py_eqb x y = true ↔ dict_key x = dict_key y.
Proof.
  destruct x as [|a|a|a|?|?], y as [|b|b|b|?|?]; simpl; try discriminate;
    intros _ _;
    rewrite ?Z.eqb_eq, ?String.eqb_eq; try (destruct a, b; simpl);
    split; (congruence || discriminate || auto).
Qed.

Lemma py_eqb_false_dict_key (x y : json) :
  hashable x = true → hashable y = true →
  py_eqb x y = false ↔ dict_key x ≠ dict_key y.
Proof.
  intros Hx Hy. rewrite <- (py_eqb_dict_key x y Hx Hy).
  destruct (py_eqb x y); split; congruence.
Qed.

Section Grouping.

Lemma grouped_append_cases (key : json) (row : InputRecord) (grouped : list group) :
  (∃ g1 k rows g2,
      grouped = g1 ++ (k, rows) :: g2 ∧ py_eqb k key = true ∧
      Forall (λ g : group, py_eqb g.1 key = false) g1 ∧
      grouped_append key row grouped = g1 ++ (k, rows ++ [row]) :: g2)
  ∨ (Forall (λ g : group, py_eqb g.1 key = false) grouped ∧
     grouped_append key row grouped = grouped ++ [(key, [row])]).
Proof.
  induction grouped as [|[k rows] grouped IH]; simpl.
  - right. split; [constructor | reflexivity].
  - destruct (py_eqb k key) eqn:Hk.
    + left. exists [], k, rows, grouped.
      split; [reflexivity|]. split; [assumption|].
      split; [constructor | reflexivity].
    + destruct IH as [(g1 & k' & rows' & g2 & -> & Hk' & Hg1 & ->)|[Hall ->]].
      * left. exists ((k, rows) :: g1), k', rows', g2.
        split; [reflexivity|]. split; [assumption|].
        split; [by constructor | reflexivity].
      * right. split; [by constructor | reflexivity].
Qed.

Lemma filter_snoc {A : Type} (p : A → bool) (l : list A) (x : A) :
  List.filter p (l ++ [x]) = List.filter p l ++ (if p x then [x] else []).
Proof. rewrite List.filter_app. simpl. by destruct (p x). Qed.

Lemma grouping_of_append (done : list InputRecord) (grouped : list group)
    (row : InputRecord) :
  hashable (state_name row) = true → hashable_rows done →
  grouping_of done grouped →
  grouping_of (done ++ [row]) (grouped_append (state_name row) row grouped).
Proof.
  intros Hrow Hdone [Hkeys Hhash Hrows Htotal].
  set (key := state_name row) in *.
  assert (∀ g : group, hashable g.1 = true → py_eqb g.1 key = false →
            g.2 = List.filter (in_group g.1) done →
            g.2 = List.filter (in_group g.1) (done ++ [row])) as Hkeep.
  { intros g _ Hne ->. rewrite filter_snoc. unfold in_group at 3. fold key.
    rewrite Hne. by rewrite app_nil_r. }
  destruct (grouped_append_cases key row grouped)
    as [(g1 & k & rows & g2 & -> & Hk & Hg1 & ->)|[Hall ->]].
  - rewrite List.map_app in Hkeys. simpl in Hkeys.
    apply Forall_app in Hhash as [Hh1 Hh2].
    apply Forall_cons in Hh2 as [Hhk Hh2].
    apply Forall_app in Hrows as [Hr1 Hr2].
    apply Forall_cons in Hr2 as [Hrk Hr2]. simpl in Hhk, Hrk.
    assert (Forall (λ g : group, py_eqb g.1 key = false) g2) as Hg2.
    { apply Forall_forall. intros g Hg.
      assert (hashable g.1 = true) as Hhg by (by eapply Forall_forall in Hh2).
      apply py_eqb_false_dict_key; [assumption..|].
      apply (py_eqb_dict_key k key Hhk Hrow) in Hk. rewrite <- Hk.
      apply NoDup_app in Hkeys as (_ & _ & Hnd).
      apply NoDup_cons in Hnd as [Hnotin _]. intros Heq. apply Hnotin.
      rewrite <- Heq. apply list_elem_of_In, in_map_iff. exists g.
      split; [reflexivity | by apply list_elem_of_In]. }
    split.
    + by rewrite List.map_app.
    + apply Forall_app. split; [assumption|]. by constructor.
    + apply Forall_app. split.
      * apply Forall_forall. intros g Hg. apply Hkeep.
        -- by eapply Forall_forall in Hh1.
        -- by eapply Forall_forall in Hg1.
        -- by eapply Forall_forall in Hr1.
      * constructor.
        -- simpl. rewrite filter_snoc. unfold in_group at 2. fold key.
           rewrite Hk, <- Hrk. reflexivity.
        -- apply Forall_forall. intros g Hg. apply Hkeep.
           ++ by eapply Forall_forall in Hh2.
           ++ by eapply Forall_forall in Hg2.
           ++ by eapply Forall_forall in Hr2.
    + apply Forall_app. split.
      * eapply Forall_impl; [exact Htotal|]. intros r Hr.
        apply Exists_app in Hr. apply Exists_app.
        destruct Hr as [Hr|Hr]; [by left|right].
        apply Exists_cons in Hr. apply Exists_cons.
        destruct Hr as [Hr|Hr]; [by left | by right].
      * constructor; [|constructor]. apply Exists_app. right.
        apply Exists_cons. left. exact Hk.
  - split.
    + rewrite List.map_app. simpl. apply NoDup_app. split; [assumption|]. split.
      * intros x Hx Hx'. apply list_elem_of_In in Hx.
        apply in_map_iff in Hx as (g & <- & Hg). apply list_elem_of_In in Hg.
        apply list_elem_of_singleton in Hx'.
        assert (py_eqb g.1 key = false) as Hne by (by eapply Forall_forall in Hall).
        apply py_eqb_false_dict_key in Hne; [contradiction| |assumption].
        by eapply Forall_forall in Hhash.
      * apply NoDup_singleton.
    + apply Forall_app. split; [assumption|]. by repeat constructor.
    + apply Forall_app. split.
      * apply Forall_forall. intros g Hg. apply Hkeep.
        -- by eapply Forall_forall in Hhash.
        -- by eapply Forall_forall in Hall.
        -- by eapply Forall_forall in Hrows.
      * constructor; [|constructor]. simpl. rewrite filter_snoc.
        unfold in_group at 2. fold key.
        rewrite (proj2 (py_eqb_dict_key key key Hrow Hrow) eq_refl).
        rewrite filter_none; [reflexivity|].
        apply Forall_forall. intros r Hr.
        assert (hashable (state_name r) = true) as Hhr
          by (by eapply Forall_forall in Hdone).
        eapply Forall_forall in Htotal; [|exact Hr].
        apply Exists_exists in Htotal as (g & Hg & Hgr).
        assert (hashable g.1 = true) as Hhg by (by eapply Forall_forall in Hhash).
        assert (py_eqb g.1 key = false) as Hne by (by eapply Forall_forall in Hall).
        unfold in_group in *.
        apply py_eqb_false_dict_key; [assumption..|].
        apply py_eqb_false_dict_key in Hne; [|assumption..].
        apply py_eqb_dict_key in Hgr; [|assumption..]. congruence.
    + apply Forall_app. split.
      * eapply Forall_impl; [exact Htotal|]. intros r Hr.
        apply Exists_app. by left.
      * constructor; [|constructor]. apply Exists_app. right.
        apply Exists_cons. left. unfold in_group. simpl.
        by apply py_eqb_dict_key.
Qed.

Lemma group_loop_spec (out done : list InputRecord) (grouped : list group) :
  hashable_rows done → hashable_rows out → grouping_of done grouped →
  ∃ grouped', group_loop out grouped = Ok grouped' ∧
              grouping_of (done ++ out) grouped'.
Proof.
  revert done grouped. induction out as [|row out IH]; intros done grouped Hd Ho Hg.
  - exists grouped. rewrite app_nil_r. by split.
  - apply Forall_cons in Ho as [Hrow Ho]. simpl. rewrite Hrow.
    destruct (IH (done ++ [row]) (grouped_append (state_name row) row grouped))
      as (grouped' & Hloop & Hspec).
    + apply Forall_app. split; [assumption | by constructor].
    + assumption.
    + by apply grouping_of_append.
    + exists grouped'. split; [assumption|]. by rewrite <- app_assoc in Hspec.
Qed.

End Grouping.

(** ** [Py37.fromisoformat] satisfies the laws *)

Section Py37Laws.

Import Py37.

Lemma digit_val_digit_char (n : Z) :
  0 ≤ n < 10 → digit_val (digit_char n) = Some n.
Proof.
  intros H.
  assert (n = 0 ∨ n = 1 ∨ n = 2 ∨ n = 3 ∨ n = 4 ∨ n = 5 ∨ n = 6 ∨ n = 7 ∨
          n = 8 ∨ n = 9) as Hn by lia.
  repeat (destruct Hn as [->|Hn]; [reflexivity|]). by subst.
Qed.

Lemma read_digits_digits (w : nat) (n acc : Z) (rest : string) :
  0 ≤ n →
  read_digits w acc (digits w n +:+ rest) =
  Some (acc * 10 ^ Z.of_nat w + n mod 10 ^ Z.of_nat w, rest).
Proof.
  intros Hn. revert acc. induction w as [|w IH]; intros acc.
  - simpl. rewrite Z.mod_1_r. do 2 f_equal. lia.
  - change (digits (S w) n +:+ rest) with
      (String (digit_char ((n / 10 ^ Z.of_nat w) mod 10)) (digits w n +:+ rest)).
    cbn [read_digits].
    rewrite digit_val_digit_char by (apply Z.mod_pos_bound; lia).
    cbn [mbind option_bind]. rewrite IH. do 2 f_equal.
    rewrite Nat2Z.inj_succ, Z.pow_succ_r by lia.
    rewrite (Z.mul_comm 10), Z.rem_mul_r by lia. lia.
Qed.

Lemma read_digits_field (w : nat) (n : Z) (rest : string) :
  0 ≤ n < 10 ^ Z.of_nat w →
  read_digits w 0 (digits w n +:+ rest) = Some (n, rest).
Proof.
  intros H. rewrite read_digits_digits by lia.
  rewrite Z.mod_small by lia. reflexivity.
Qed.

Lemma read_digits_2 (n : Z) (rest : string) :
  0 ≤ n < 100 → read_digits 2 0 (digits 2 n +:+ rest) = Some (n, rest).
Proof. intros H. by apply read_digits_field. Qed.

Lemma read_digits_4 (n : Z) (rest : string) :
  0 ≤ n < 10000 → read_digits 4 0 (digits 4 n +:+ rest) = Some (n, rest).
Proof. intros H. by apply read_digits_field. Qed.

Lemma read_digits_6 (n : Z) (rest : string) :
  0 ≤ n < 1000000 → read_digits 6 0 (digits 6 n +:+ rest) = Some (n, rest).
Proof. intros H. by apply read_digits_field. Qed.

Opaque digits.

Lemma fromisoformat_valid (s : string) (d : datetime) :
  fromisoformat s = Some d → valid_datetime d = true.
Proof.
  unfold fromisoformat. intros H.
  apply bind_Some in H as ([[[y m] dd] rest] & _ & H).
  apply bind_Some in H as (d' & _ & H).
  destruct (valid_datetime d') eqn:Hd; [|discriminate]. congruence.
Qed.

Lemma expect_sep (c : ascii) (rest : string) :
  expect c (String c "" +:+ rest) = Some rest.
Proof. simpl. by rewrite Ascii.eqb_refl. Qed.

Ltac read_field :=
  first [ rewrite read_digits_2 by lia
        | rewrite read_digits_4 by lia
        | rewrite read_digits_6 by lia
        | rewrite expect_sep ];
  cbn [mbind option_bind].

Lemma parse_date_digits (y m d : Z) (rest : string) :
  0 ≤ y < 10000 → 0 ≤ m < 100 → 0 ≤ d < 100 →
  parse_date (digits 4 y +:+ "-" +:+ digits 2 m +:+ "-" +:+ digits 2 d +:+ rest)
  = Some (y, m, d, rest).
Proof.
  intros Hy Hm Hd. unfold parse_date. do 5 read_field. reflexivity.
Qed.

Lemma parse_time_digits (hh mm ss us : Z) (tz : string) :
  0 ≤ hh < 100 → 0 ≤ mm < 100 → 0 ≤ ss < 100 → 0 ≤ us < 1000000 →
  expect "." tz = None →
  parse_time (digits 2 hh +:+ ":" +:+ digits 2 mm +:+ ":" +:+ digits 2 ss +:+
              (if us =? 0 then "" else "." +:+ digits 6 us) +:+ tz)
  = Some (hh, mm, ss, us, tz).
Proof.
  intros Hh Hm Hs Hu Htz. unfold parse_time. do 5 read_field.
  destruct (us =? 0) eqn:Hus.
  - change ("" +:+ tz) with tz. rewrite Htz. apply Z.eqb_eq in Hus. by subst.
  - change (("." +:+ digits 6 us) +:+ tz) with ("." +:+ digits 6 us +:+ tz).
    read_field. unfold parse_fraction. read_field. reflexivity.
Qed.

Lemma append_empty_r (s : string) : s +:+ "" = s.
Proof.
  induction s as [|c s IH]; [reflexivity|].
  change (String c (s +:+ "") = String c s). by rewrite IH.
Qed.

Lemma append_String (c : ascii) (s rest : string) :
  String c s +:+ rest = String c (s +:+ rest).
Proof. reflexivity. Qed.

Lemma append_empty_l (rest : string) : "" +:+ rest = rest.
Proof. reflexivity. Qed.

Lemma parse_offset_seconds_digits (ss us : Z) :
  0 ≤ ss < 100 → 0 ≤ us < 1000000 →
  parse_offset_seconds
    (if (ss =? 0) && (us =? 0) then ""
     else ":" +:+ digits 2 ss +:+ (if us =? 0 then "" else "." +:+ digits 6 us))
  = Some (ss, us).
Proof.
  intros Hs Hu. unfold parse_offset_seconds.
  destruct ((ss =? 0) && (us =? 0)) eqn:Hzero.
  - apply andb_true_iff in Hzero as [Hss Hus].
    apply Z.eqb_eq in Hss, Hus. by subst.
  - change (at_end (":" +:+ digits 2 ss +:+
                    (if us =? 0 then "" else "." +:+ digits 6 us))) with false.
    cbv iota. do 2 read_field. destruct (us =? 0) eqn:Hus.
    + apply Z.eqb_eq in Hus. by subst.
    + change (at_end ("." +:+ digits 6 us)) with false. cbv iota.
      read_field. rewrite <- (append_empty_r (digits 6 us)). read_field.
      reflexivity.
Qed.

Lemma parse_offset_format_offset (off : Z) :
  - day_us < off < day_us →
  parse_offset (format_offset off) = Some (Some off).
Proof.
  intros Hoff. unfold format_offset, day_us in *.
  set (a := Z.abs off).
  assert (0 ≤ a < 86400000000) as Ha by (unfold a; lia).
  assert (0 ≤ a / 3600000000 < 100) as Hhh.
  { split; [apply Z.div_pos; lia|]. apply Z.div_lt_upper_bound; lia. }
  pose proof (Z.mod_pos_bound (a / 60000000) 60 ltac:(lia)) as Hmm.
  pose proof (Z.mod_pos_bound (a / 1000000) 60 ltac:(lia)) as Hss.
  pose proof (Z.mod_pos_bound a 1000000 ltac:(lia)) as Hus.
  assert (((a / 3600000000 * 60 + (a / 60000000) mod 60) * 60 +
           (a / 1000000) mod 60) * 1000000 + a mod 1000000 = a) as Hsum.
  { replace (a / 3600000000) with (a / 1000000 / 60 / 60)
      by (rewrite !Z.div_div by lia; reflexivity).
    replace (a / 60000000) with (a / 1000000 / 60)
      by (rewrite !Z.div_div by lia; reflexivity).
    pose proof (Z.div_mod a 1000000 ltac:(lia)).
    pose proof (Z.div_mod (a / 1000000) 60 ltac:(lia)).
    pose proof (Z.div_mod (a / 1000000 / 60) 60 ltac:(lia)).
    lia. }
  destruct (off <? 0) eqn:Hneg;
    rewrite append_String, append_empty_l;
    cbn [parse_offset Ascii.eqb Bool.eqb mbind option_bind];
    do 3 read_field; rewrite parse_offset_seconds_digits by lia;
    cbn [mbind option_bind]; rewrite Hsum; do 2 f_equal; lia.
Qed.

Lemma expect_format_offset (off : Z) : expect "." (format_offset off) = None.
Proof.
  unfold format_offset. destruct (off <? 0);
    rewrite append_String, append_empty_l; reflexivity.
Qed.

Lemma valid_datetime_bounds (d : datetime) :
  valid_datetime d = true →
  0 ≤ year d < 10000 ∧ 0 ≤ month d < 100 ∧ 0 ≤ day d < 100 ∧
  0 ≤ hour d < 100 ∧ 0 ≤ minute d < 100 ∧ 0 ≤ second d < 100 ∧
  0 ≤ microsecond d < 1000000 ∧
  match utcoffset d with
  | Some off => - day_us < off < day_us
  | None => True
  end.
Proof.
  unfold valid_datetime. rewrite !andb_true_iff.
  rewrite !Z.leb_le, !Z.ltb_lt.
  intros [[[[[[[[[[[[[[? ?] ?] ?] ?] Hday] ?] ?] ?] ?] ?] ?] ?] ?] Htz].
  assert (days_in_month (year d) (month d) ≤ 31) as Hdim.
  { unfold days_in_month.
    repeat match goal with |- context [if ?b then _ else _] => destruct b end;
      lia. }
  repeat split; try lia.
  destruct (utcoffset d) as [off|]; [|exact I].
  apply andb_true_iff in Htz as [Hlo Hhi]. apply Z.ltb_lt in Hlo, Hhi. lia.
Qed.

Lemma fromisoformat_isoformat (d : datetime) :
  valid_datetime d = true → fromisoformat (isoformat d) = Some d.
Proof.
  intros Hvalid.
  destruct (valid_datetime_bounds d Hvalid)
    as (Hy & Hm & Hd & Hh & Hmi & Hs & Hus & Htz).
  unfold fromisoformat, isoformat.
  rewrite parse_date_digits by assumption. cbn [mbind option_bind].
  rewrite append_String, append_empty_l.
  rewrite parse_time_digits; try assumption.
  - cbn [mbind option_bind].
    assert (parse_offset
              match utcoffset d with
              | Some off => format_offset off
              | None => ""
              end = Some (utcoffset d)) as ->.
    { destruct (utcoffset d) as [off|]; [|reflexivity].
      by apply parse_offset_format_offset. }
    cbn [mbind option_bind]. destruct d. simpl in *. by rewrite Hvalid.
  - destruct (utcoffset d); [apply expect_format_offset | reflexivity].
Qed.

Lemma Py37_laws : fromisoformat_laws fromisoformat.
Proof. split; [exact fromisoformat_valid | exact fromisoformat_isoformat]. Qed.

Transparent digits.

End Py37Laws.

Section LoopOutput.

Variable fromisoformat : string → option datetime.
Hypothesis laws : fromisoformat_laws fromisoformat.
Variable E : env.

Lemma fetch_loop_out (commits : list string) (fs : gmap string file)
    (out out' : list InputRecord) :
  (fetch_loop fromisoformat E commits fs out).2 = Ok out' →
  out' = out ++ concat (List.map
           (revision_rows fromisoformat (fetch_loop fromisoformat E commits fs out).1)
           commits).
Proof.
  revert fs out. induction commits as [|ref commits IH]; intros fs out.
  - simpl. intros [= <-]. by rewrite app_nil_r.
  - rewrite fetch_loop_cons.
    destruct (read_cache fromisoformat fs (cache_path ref)) as [| |[rows|e]] eqn:Href.
    + destruct (fetch_rows fromisoformat E ref) as [rows|e] eqn:Hrows;
        [|discriminate].
      pose proof (read_cache_write_cache fromisoformat laws fs (cache_path ref) rows
                    (fetch_rows_timestamped fromisoformat laws E ref rows Hrows))
        as Hserved.
      intros H. rewrite (IH _ _ H) at 1. cbn [List.map concat].
      unfold revision_rows at 2.
      rewrite (read_cache_ext fromisoformat _ (write_cache fs (cache_path ref) rows)).
      * rewrite Hserved. by rewrite app_assoc.
      * apply fetch_loop_settled. rewrite Hserved. discriminate.
    + intros H. rewrite (IH _ _ H) at 1. cbn [List.map concat].
      unfold revision_rows at 2.
      rewrite (read_cache_ext fromisoformat _ fs).
      * by rewrite Href.
      * apply fetch_loop_settled. rewrite Href. discriminate.
    + intros H. rewrite (IH _ _ H) at 1. cbn [List.map concat].
      unfold revision_rows at 2.
      rewrite (read_cache_ext fromisoformat _ fs).
      * rewrite Href. by rewrite app_assoc.
      * apply fetch_loop_settled. rewrite Href. discriminate.
    + discriminate.
Qed.

End LoopOutput.

Lemma NoDup_map_eq {A B : Type} (f : A → B) (l : list A) (x y : A) :
  NoDup (List.map f l) → In x l → In y l → f x = f y → x = y.
Proof.
  induction l as [|z l IH]; simpl; [tauto|].
  intros Hnd Hx Hy Hxy. apply NoDup_cons in Hnd as [Hz Hnd].
  destruct Hx as [->|Hx], Hy as [->|Hy].
  - reflexivity.
  - exfalso. apply Hz. rewrite Hxy. apply list_elem_of_In. by apply in_map.
  - exfalso. apply Hz. rewrite <- Hxy. apply list_elem_of_In. by apply in_map.
  - by apply IH.
Qed.

Lemma read_cache_Fallthrough (fromisoformat : string → option datetime)
    (fs : gmap string file) (p : string) :
  read_cache fromisoformat fs p = Fallthrough →
  fs !! p = None ∨
  ∃ items, fs !! p = Some (Decoded (JObj items)) ∧
           py_eqb (field_or JNull "version" items) (JInt CACHE_VERSION) = false.
Proof.
  unfold read_cache. destruct (fs !! p) as [[|record]|]; [discriminate| |by left].
  destruct record as [| | | | |items]; try discriminate.
  rewrite py_get_field_or.
  destruct (py_eqb _ _) eqn:Hv; [discriminate|]. right. eauto.
Qed.

Lemma dict_lookup_In (key : string) (items : list (string * json)) :
  is_Some (dict_lookup key items) → In key (List.map fst items).
Proof.
  intros [v Hv]. induction items as [|[k' v'] items IH]; simpl in *;
    [discriminate|].
  destruct (String.eqb k' key) eqn:Hk; [|by right; apply IH].
  left. by apply String.eqb_eq.
Qed.

Lemma InputRecord_kwargs_Ok_inv (ts : timestamp_value)
    (row_data : list (string * json)) (row : InputRecord) :
  InputRecord_kwargs ts row_data = Ok row →
  ∀ k, In k (List.map fst row_data) ↔ In k InputRecord_fields.
Proof.
  unfold InputRecord_kwargs.
  destruct (forallb _ _) eqn:Hkeys; [|discriminate].
  match goal with
  | |- match ?o with _ => _ end = _ → _ => destruct o eqn:Hall; [|discriminate]
  end.
  intros _ k. split.
  - intros Hk. rewrite forallb_forall in Hkeys. specialize (Hkeys k Hk).
    apply existsb_exists in Hkeys as (f & Hf & Heq).
    apply String.eqb_eq in Heq. by subst.
  - repeat (apply bind_Some in Hall as (? & ? & Hall)).
    unfold InputRecord_fields. simpl.
    intros Hk; repeat (destruct Hk as [<-|Hk]; [apply dict_lookup_In; eauto|]).
    destruct Hk.
Qed.

Lemma load_row_Ok_inv (fromisoformat : string → option datetime)
    (row_data : list (string * json)) (row : InputRecord) :
  load_row fromisoformat (JObj row_data) = Ok row →
  ∀ k, In k (List.map fst row_data) ↔ In k InputRecord_fields.
Proof.
  unfold load_row. destruct (dict_lookup "timestamp" row_data) as [t|];
    [|discriminate].
  destruct t; try apply InputRecord_kwargs_Ok_inv.
  intros H. apply bind_Ok in H as (d & _ & H).
  by eapply InputRecord_kwargs_Ok_inv.
Qed.

Lemma load_row_malformed (fromisoformat : string → option datetime)
    (row_data : list (string * json)) :
  dict_lookup "timestamp" row_data = None ∨
  ¬ (∀ k, In k (List.map fst row_data) ↔ In k InputRecord_fields) →
  ∃ e, load_row fromisoformat (JObj row_data) = Raise e.
Proof.
  intros H. destruct (load_row fromisoformat (JObj row_data)) as [row|e] eqn:Hrow;
    [|eauto].
  exfalso. destruct H as [Hts|Hkeys].
  - unfold load_row in Hrow. rewrite Hts in Hrow. discriminate.
  - apply Hkeys. by eapply load_row_Ok_inv.
Qed.

(** ** The timestamps of the Records of a run *)

Lemma InputRecord_kwargs_timestamp (ts : timestamp_value)
    (row_data : list (string * json)) (row : InputRecord) :
  InputRecord_kwargs ts row_data = Ok row → timestamp row = ts.
Proof.
  unfold InputRecord_kwargs.
  destruct (forallb _ _); [|discriminate].
  match goal with
  | |- match ?o with _ => _ end = _ → _ => destruct o eqn:Hall; [|discriminate]
  end.
  intros [= <-].
  repeat (apply bind_Some in Hall as (? & ? & Hall)).
  by injection Hall as <-.
Qed.

(** Line 101 turns every timestamp that is text into a datetime. *)
Lemma load_row_timestamp (fromisoformat : string → option datetime)
    (row : json) (r : InputRecord) :
  load_row fromisoformat row = Ok r → ∀ s, timestamp r ≠ TsOther (JStr s).
Proof.
  unfold load_row. destruct row as [| | | | |row_data]; try discriminate.
  destruct (dict_lookup "timestamp" row_data) as [t|]; [|discriminate].
  intros H s Hs. destruct t;
    try (apply InputRecord_kwargs_timestamp in H; rewrite H in Hs; discriminate).
  apply bind_Ok in H as (d & _ & H).
  apply InputRecord_kwargs_timestamp in H. rewrite H in Hs. discriminate.
Qed.

Lemma read_cache_Served_timestamps (fromisoformat : string → option datetime)
    (fs : gmap string file) (p : string) (rows : list InputRecord) :
  read_cache fromisoformat fs p = Served (Ok rows) →
  Forall (λ r, ∀ s, timestamp r ≠ TsOther (JStr s)) rows.
Proof.
  unfold read_cache. destruct (fs !! p) as [[|record]|]; try discriminate.
  destruct (py_get record "version" JNull) as [v|e]; [|discriminate].
  destruct (py_eqb v _); [|discriminate].
  intros [= H]. unfold load_rows in H. apply bind_Ok in H as (l & _ & H).
  apply mapM_Ok_Forall2 in H.
  induction H as [|row r l rows Hr _ IH]; constructor; [|exact IH].
  by eapply load_row_timestamp.
Qed.

Lemma process_json_data_datetimes (fromisoformat : string → option datetime)
    (json_data : json) (rows : list InputRecord) :
  process_json_data fromisoformat json_data = Ok rows →
  Forall (λ row, ∃ d, timestamp row = TsDatetime d) rows.
Proof.
  unfold process_json_data. intros H.
  apply bind_Ok in H as (races & _ & H).
  apply for_each_Ok_inv in H as (per & Hper & ->).
  induction Hper as [|race rs races per Hrace _ IH]; simpl; [constructor|].
  apply Forall_app. split; [|exact IH].
  apply process_race_Ok_inv in Hrace as (s & d & _ & _ & Hts & _).
  eapply Forall_impl; [exact Hts|]. intros row Hrow. by exists d.
Qed.

Lemma fetch_loop_timestamps (fromisoformat : string → option datetime) (E : env)
    (commits : list string) (fs : gmap string file) (out out' : list InputRecord) :
  (fetch_loop fromisoformat E commits fs out).2 = Ok out' →
  Forall (λ r, ∀ s, timestamp r ≠ TsOther (JStr s)) out →
  Forall (λ r, ∀ s, timestamp r ≠ TsOther (JStr s)) out'.
Proof.
  revert fs out. induction commits as [|ref commits IH]; intros fs out.
  - simpl. by intros [= <-].
  - rewrite fetch_loop_cons.
    destruct (read_cache fromisoformat fs (cache_path ref)) as [| |[rows|e]] eqn:Href.
    + destruct (fetch_rows fromisoformat E ref) as [rows|e] eqn:Hrows;
        [|discriminate].
      intros H Hout. eapply IH; [exact H|]. apply Forall_app. split; [assumption|].
      unfold fetch_rows in Hrows.
      apply bind_Ok in Hrows as (blob & _ & Hrows).
      apply bind_Ok in Hrows as (parsed & _ & Hrows).
      apply process_json_data_datetimes in Hrows.
      eapply Forall_impl; [exact Hrows|]. intros row [d Hd] s. by rewrite Hd.
    + apply IH.
    + intros H Hout. eapply IH; [exact H|]. apply Forall_app. split; [assumption|].
      by eapply read_cache_Served_timestamps.
    + discriminate.
Qed.

Lemma sort_key_Ok_datetime (fromisoformat : string → option datetime)
    (row : InputRecord) (k : datetime) :
  (∀ s, timestamp row ≠ TsOther (JStr s)) →
  sort_key fromisoformat row = Ok k → timestamp row = TsDatetime k.
Proof.
  unfold sort_key. destruct (timestamp row) as [d|j]; intros Hrow.
  - by intros [= ->].
  - destruct j; try discriminate. by destruct (Hrow s).
Qed.

Lemma row_instant_timestamp (fromisoformat : string → option datetime)
    (row : InputRecord) (d : datetime) :
  timestamp row = TsDatetime d →
  row_instant fromisoformat row = timestamp_instant row.
Proof. unfold row_instant, sort_key, timestamp_instant. by intros ->. Qed.

Lemma StronglySorted_measure {A : Type} (f g : A → Z) (l : list A) :
  Forall (λ x, f x = g x) l →
  StronglySorted (λ a b, f a ≤ f b) l → StronglySorted (λ a b, g a ≤ g b) l.
Proof.
  intros Hl Hs. induction Hs as [|x l _ IH Hx]; [constructor|].
  apply Forall_cons in Hl as [Hfx Hl]. constructor; [by apply IH|].
  apply Forall_forall. intros y Hy.
  pose proof Hy as Hxy. eapply Forall_forall in Hxy; [|exact Hx].
  eapply Forall_forall in Hy; [|exact Hl]. simpl in *. lia.
Qed.

Lemma filter_measure {A : Type} (f g : A → Z) (t : Z) (l : list A) :
  Forall (λ x, f x = g x) l →
  List.filter (λ x, f x =? t) l = List.filter (λ x, g x =? t) l.
Proof. induction 1 as [|x l Hx _ IH]; simpl; [reflexivity|]. by rewrite Hx, IH. Qed.

(** The sort of line 119 on Records that hold datetimes: the order is that
    of the [timestamp] fields. *)
Lemma sort_out_datetimes (fromisoformat : string → option datetime)
    (out : list InputRecord) (w : bool) :
  Forall (λ row, ∃ d, timestamp row = TsDatetime d ∧ aware d = w) out →
  ∃ sorted,
    sort_out fromisoformat out = Ok sorted ∧
    Permutation out sorted ∧
    StronglySorted (λ a b, timestamp_instant a ≤ timestamp_instant b) sorted ∧
    ∀ t, List.filter (λ row, timestamp_instant row =? t) sorted
         = List.filter (λ row, timestamp_instant row =? t) out.
Proof.
  intros Hout.
  assert (∃ keys, mapM (sort_key fromisoformat) out = Ok keys ∧
                  Forall (λ k, aware k = w) keys) as (keys & Hkeys & Haware).
  { induction Hout as [|row out (d & Hd & Hw) _ (keys & Hkeys & Haware)].
    - exists []. split; [reflexivity | constructor].
    - exists (d :: keys). split; [|by constructor].
      apply mapM_Ok_Forall2. apply mapM_Ok_Forall2 in Hkeys.
      constructor; [|exact Hkeys]. unfold sort_key. by rewrite Hd. }
  assert (Forall (λ row, row_instant fromisoformat row = timestamp_instant row) out)
    as Hsame.
  { eapply Forall_impl; [exact Hout|]. intros row (d & Hd & _).
    by eapply row_instant_timestamp. }
  destruct (sort_out_spec fromisoformat out keys w Hkeys Haware)
    as (sorted & Hsort & Hperm & Hasc & Hstable).
  assert (Forall (λ row, row_instant fromisoformat row = timestamp_instant row) sorted)
    as Hsame' by (by rewrite <- Hperm).
  exists sorted. split; [assumption|]. split; [assumption|]. split.
  - by apply (StronglySorted_measure (row_instant fromisoformat)).
  - intros t.
    rewrite <- (filter_measure (row_instant fromisoformat) _ t sorted Hsame').
    rewrite <- (filter_measure (row_instant fromisoformat) _ t out Hsame).
    apply Hstable.
Qed.


(** * The statements of the specification *)

(** The example of the specification: two revisions of one race for Nevada
    give a series of two Records, 180 votes first and 240 after. *)
Example nevada_series :
  (fetch_all_records Py37.fromisoformat Example.history ∅).2
  = Ok [(JStr "Nevada", [Example.nevada_row 10 100 80;
                         Example.nevada_row 11 150 90])] ∧
  List.map votes [Example.nevada_row 10 100 80; Example.nevada_row 11 150 90]
  = [JInt 180; JInt 240].
Proof. split; reflexivity. Qed.

(** C1, as amended.  A revision whose cache lookup falls through and whose
    fetch, parse or normalization raises ends the run with that exception:
    when the commits before it were processed without error, the result of
    the run is the exception and the cache directory is as those commits
    left it.  A failure to list the commits ends the run as well. *)
Theorem fetch_all_records_revision_failure
    (fromisoformat : string → option datetime) (E : env) (fs : gmap string file) :
  (∀ e, git_commits_for E "results.json" = Raise e →
        fetch_all_records fromisoformat E fs = (fs, Raise e)) ∧
  (∀ pre k post fs1 out1 e,
     git_commits_for E "results.json" = Ok (pre ++ k :: post) →
     git_Repo E = Ok () →
     fetch_loop fromisoformat E pre fs [] = (fs1, Ok out1) →
     read_cache fromisoformat fs1 (cache_path k) = Fallthrough →
     fetch_rows fromisoformat E k = Raise e →
     fetch_all_records fromisoformat E fs = (fs1, Raise e)).
Proof.
  split.
  - intros e He. unfold fetch_all_records. by rewrite He.
  - intros pre k post fs1 out1 e Hlog Hrepo Hpre Hk He.
    unfold fetch_all_records. rewrite Hlog, Hrepo.
    by rewrite (fetch_loop_fetch_raise fromisoformat E pre post k fs fs1 [] out1 e).
Qed.

(** C1, as stated, fails: with an unparseable revision between two good
    ones the run raises, and returns no Grouped Series. *)
Lemma bad_revision_aborts_run :
  (fetch_all_records Py37.fromisoformat Example.history_bad ∅).2
  = Raise ValueError.
Proof. vm_compute. reflexivity. Qed.

Lemma fetch_all_records_revision_failure_witness :
  ∃ fs1, fetch_all_records Py37.fromisoformat Example.history_bad ∅
         = (fs1, Raise ValueError).
Proof.
  eexists.
  eapply (proj2 (fetch_all_records_revision_failure Py37.fromisoformat
                   Example.history_bad ∅)
            [Example.rev2] Example.rev3 [Example.rev1]).
  all: reflexivity.
Defined.

(** C2, as amended.  A revision whose cache entry is not parseable is
    skipped: nothing is fetched or normalized for it, it adds no Records, the
    loop goes on with the next commit, and the entry is left as it is. *)
Theorem garbled_entry_skips_revision
    (fromisoformat : string → option datetime) (E : env) (fs : gmap string file)
    (ref : string) (commits : list string) (out : list InputRecord) :
  fs !! cache_path ref = Some Garbled →
  fetch_loop fromisoformat E (ref :: commits) fs out
  = fetch_loop fromisoformat E commits fs out ∧
  (fetch_loop fromisoformat E (ref :: commits) fs out).1 !! cache_path ref
  = Some Garbled.
Proof.
  intros H. split; [by apply fetch_loop_garbled|].
  rewrite fetch_loop_settled; [assumption|].
  unfold read_cache. rewrite H. discriminate.
Qed.

(** C2, as stated, fails: with a corrupt entry for the older revision the run
    returns the newer revision's Record alone and the entry stays corrupt,
    while without any entry it returns both Records. *)
Lemma garbled_entry_not_refetched :
  let run := fetch_all_records Py37.fromisoformat Example.history
               {[ cache_path Example.rev1 := Garbled ]} in
  run.1 !! cache_path Example.rev1 = Some Garbled ∧
  run.2 = Ok [(JStr "Nevada", [Example.nevada_row 11 150 90])] ∧
  (fetch_all_records Py37.fromisoformat Example.history ∅).2
  = Ok [(JStr "Nevada", [Example.nevada_row 10 100 80;
                         Example.nevada_row 11 150 90])].
Proof. repeat split. Qed.

Lemma garbled_entry_skips_revision_witness :
  fetch_loop Py37.fromisoformat Example.history [Example.rev1]
    {[ cache_path Example.rev1 := Garbled ]} []
  = ({[ cache_path Example.rev1 := Garbled ]}, Ok []).
Proof.
  apply (garbled_entry_skips_revision Py37.fromisoformat Example.history
           {[ cache_path Example.rev1 := Garbled ]} Example.rev1 [] []).
  reflexivity.
Defined.




(** C4.  A second run against the same history, started from the cache
    directory the first run left, returns what the first run returned and
    leaves that directory as it is; and the first run changes the cache only
    at paths where no entry existed or where the entry was an object whose
    version is not the current one. *)
Theorem fetch_all_records_idempotent
    (fromisoformat : string → option datetime) (E : env) (fs : gmap string file) :
  fromisoformat_laws fromisoformat →
  fetch_all_records fromisoformat E (fetch_all_records fromisoformat E fs).1
  = fetch_all_records fromisoformat E fs ∧
  ∀ p, (fetch_all_records fromisoformat E fs).1 !! p ≠ fs !! p →
       fs !! p = None ∨
       ∃ items, fs !! p = Some (Decoded (JObj items)) ∧
                py_eqb (field_or JNull "version" items) (JInt CACHE_VERSION) = false.
Proof.
  intros laws. unfold fetch_all_records.
  destruct (git_commits_for E "results.json") as [commits|e]; simpl.
  2: { rewrite (surjective_pairing (fs, Raise e)). split; [reflexivity|].
       intros p Hp. by destruct Hp. }
  destruct (git_Repo E) as [[]|e]; simpl.
  2: { split; [reflexivity|]. intros p Hp. by destruct Hp. }
  pose proof (fetch_loop_idempotent fromisoformat laws E commits fs []) as Hidem.
  destruct (fetch_loop fromisoformat E commits fs []) as [fs1 r] eqn:Hrun.
  simpl in *. rewrite Hidem. split; [reflexivity|].
  intros p Hp. apply (read_cache_Fallthrough fromisoformat).
  apply (fetch_loop_written fromisoformat E commits fs [] p). by rewrite Hrun.
Qed.

Lemma fetch_all_records_idempotent_witness :
  fetch_all_records Py37.fromisoformat Example.history
    (fetch_all_records Py37.fromisoformat Example.history ∅).1
  = fetch_all_records Py37.fromisoformat Example.history ∅.
Proof.
  apply (fetch_all_records_idempotent Py37.fromisoformat Example.history ∅).
  exact Py37_laws.
Defined.

(** C5.  For every set of Records whose timestamps are datetimes, reading
    the cache entry of a revision right after writing it returns those very
    Records: each timestamp is written in its text form and read back from
    it. *)
Theorem cache_get_after_put
    (fromisoformat : string → option datetime) (fs : gmap string file)
    (ref : string) (rows : list InputRecord) :
  fromisoformat_laws fromisoformat →
  Forall timestamped rows →
  read_cache fromisoformat (write_cache fs (cache_path ref) rows) (cache_path ref)
  = Served (Ok rows).
Proof. intros laws. by apply read_cache_write_cache. Qed.

Lemma cache_get_after_put_witness :
  read_cache Py37.fromisoformat
    (write_cache ∅ (cache_path Example.rev1) [Example.nevada_row 10 100 80])
    (cache_path Example.rev1)
  = Served (Ok [Example.nevada_row 10 100 80]).
Proof.
  apply (cache_get_after_put Py37.fromisoformat ∅ Example.rev1
           [Example.nevada_row 10 100 80] Py37_laws).
  constructor; [|constructor]. eexists. split; reflexivity.
Defined.

(** C6.  A cache entry whose version is not the current one is treated as
    if there were no entry: the lookup falls through, the run returns what
    it returns without the entry, and when the revision is fetched and
    normalized the entry is replaced by one that carries the current version
    and the fresh rows. *)
Theorem stale_entry_refetched
    (fromisoformat : string → option datetime) (E : env) (fs : gmap string file)
    (ref : string) (commits : list string) (out : list InputRecord)
    (record v : json) :
  fs !! cache_path ref = Some (Decoded record) →
  py_get record "version" JNull = Ok v →
  py_eqb v (JInt CACHE_VERSION) = false →
  read_cache fromisoformat fs (cache_path ref) = Fallthrough ∧
  (fetch_loop fromisoformat E (ref :: commits) fs out).2
  = (fetch_loop fromisoformat E (ref :: commits) (delete (cache_path ref) fs) out).2 ∧
  ∀ rows, fetch_rows fromisoformat E ref = Ok rows →
    fetch_loop fromisoformat E (ref :: commits) fs out
    = fetch_loop fromisoformat E commits
        (<[cache_path ref :=
             Decoded (JObj [("version", JInt CACHE_VERSION);
                            ("rows", JArr (List.map row_for_cache rows))])]> fs)
        (out ++ rows).
Proof.
  intros Hfile Hversion Hstale.
  assert (read_cache fromisoformat fs (cache_path ref) = Fallthrough) as Hread.
  { unfold read_cache. by rewrite Hfile, Hversion, Hstale. }
  assert (read_cache fromisoformat (delete (cache_path ref) fs) (cache_path ref)
          = Fallthrough) as Hread'.
  { unfold read_cache. by rewrite lookup_delete_eq. }
  split; [assumption|]. split.
  - rewrite !fetch_loop_cons, Hread, Hread'.
    destruct (fetch_rows fromisoformat E ref) as [rows|e]; [|reflexivity].
    unfold write_cache. by rewrite insert_delete_eq.
  - intros rows Hrows. by rewrite fetch_loop_cons, Hread, Hrows.
Qed.

Lemma stale_entry_refetched_witness :
  let stale := Decoded (JObj [("version", JInt 1); ("rows", JArr [])]) in
  fetch_loop Py37.fromisoformat Example.history [Example.rev1]
    {[ cache_path Example.rev1 := stale ]} []
  = ({[ cache_path Example.rev1 :=
          Decoded (JObj [("version", JInt 2);
                         ("rows", JArr [row_for_cache (Example.nevada_row 10 100 80)])]) ]},
     Ok [Example.nevada_row 10 100 80]).
Proof.
  intros stale.
  destruct (stale_entry_refetched Py37.fromisoformat Example.history
              {[ cache_path Example.rev1 := stale ]} Example.rev1 [] []
              (JObj [("version", JInt 1); ("rows", JArr [])]) (JInt 1))
    as (_ & _ & Hrun); [reflexivity..|].
  rewrite (Hrun [Example.nevada_row 10 100 80]); reflexivity.
Defined.

(** C7.  The sequence the run sorts is the concatenation, in commit order,
    of every revision's Records, and sorting it gives a permutation in
    ascending order of the [timestamp] fields in which Records of equal
    timestamp keep the order they had: whenever the timestamps are
    datetimes, all aware or all naive, the sort returns such a sequence. *)
Theorem aggregated_sequence_stably_sorted
    (fromisoformat : string → option datetime) (E : env) (fs : gmap string file)
    (commits : list string) (out : list InputRecord) (w : bool) :
  fromisoformat_laws fromisoformat →
  git_commits_for E "results.json" = Ok commits →
  git_Repo E = Ok () →
  (fetch_loop fromisoformat E commits fs []).2 = Ok out →
  Forall (λ row, ∃ d, timestamp row = TsDatetime d ∧ aware d = w) out →
  out = concat (List.map
          (revision_rows fromisoformat (fetch_all_records fromisoformat E fs).1)
          commits) ∧
  ∃ sorted,
    sort_out fromisoformat out = Ok sorted ∧
    (fetch_all_records fromisoformat E fs).2 = group_loop sorted [] ∧
    Permutation out sorted ∧
    StronglySorted (λ a b, timestamp_instant a ≤ timestamp_instant b) sorted ∧
    ∀ t, List.filter (λ row, timestamp_instant row =? t) sorted
         = List.filter (λ row, timestamp_instant row =? t) out.
Proof.
  intros laws Hlog Hrepo Hout Hdatetimes.
  assert ((fetch_all_records fromisoformat E fs).1
          = (fetch_loop fromisoformat E commits fs []).1) as Hfs.
  { unfold fetch_all_records. rewrite Hlog, Hrepo.
    by destruct (fetch_loop fromisoformat E commits fs []). }
  split.
  - rewrite Hfs. by apply (fetch_loop_out fromisoformat laws E commits fs []).
  - destruct (sort_out_datetimes fromisoformat out w Hdatetimes)
      as (sorted & Hsort & Hperm & Hasc & Hstable).
    exists sorted. split; [assumption|]. split; [|by repeat split].
    unfold fetch_all_records. rewrite Hlog, Hrepo.
    destruct (fetch_loop fromisoformat E commits fs []) as [fs1 r].
    simpl in *. subst r. simpl. by rewrite Hsort.
Qed.

Lemma aggregated_sequence_stably_sorted_witness :
  sort_out Py37.fromisoformat
    [Example.nevada_row 11 150 90; Example.nevada_row 10 100 80]
  = Ok [Example.nevada_row 10 100 80; Example.nevada_row 11 150 90] ∧
  StronglySorted (λ a b, timestamp_instant a ≤ timestamp_instant b)
    [Example.nevada_row 10 100 80; Example.nevada_row 11 150 90].
Proof.
  destruct (aggregated_sequence_stably_sorted Py37.fromisoformat Example.history ∅
              [Example.rev2; Example.rev1]
              [Example.nevada_row 11 150 90; Example.nevada_row 10 100 80]
              true Py37_laws)
    as (_ & sorted & Hsort & _ & _ & Hasc & _); try reflexivity.
  - constructor; [|constructor; [|constructor]]; eexists; split; reflexivity.
  - assert (sort_out Py37.fromisoformat
              [Example.nevada_row 11 150 90; Example.nevada_row 10 100 80]
            = Ok [Example.nevada_row 10 100 80; Example.nevada_row 11 150 90])
      as Hrun by reflexivity.
    rewrite Hrun in Hsort. injection Hsort as <-. by split.
Defined.

(** C8.  When every group key can be hashed, the grouping returns a
    Grouped Series in which each group holds exactly the Records of the
    sorted sequence filed under its key, in the order of that sequence, and
    in which every Record of the sequence has one group, the group of its
    key, and is in no other. *)
Theorem grouped_series_partition (sorted : list InputRecord) :
  hashable_rows sorted →
  ∃ grouped,
    group_loop sorted [] = Ok grouped ∧
    (∀ k rows, In (k, rows) grouped →
               rows = List.filter (in_group k) sorted) ∧
    (∀ row, In row sorted →
       ∃ k rows, In (k, rows) grouped ∧ in_group k row = true ∧ In row rows ∧
         ∀ k' rows', In (k', rows') grouped → In row rows' →
                     (k', rows') = (k, rows)).
Proof.
  intros Hsorted.
  destruct (group_loop_spec sorted [] []) as (grouped & Hloop & Hspec).
  - constructor.
  - assumption.
  - split; constructor.
  - simpl in Hspec. destruct Hspec as [Hkeys Hhash Hrows Htotal].
    exists grouped. split; [assumption|]. split.
    + intros k rows Hin. eapply Forall_forall in Hrows;
        [|apply list_elem_of_In; exact Hin]. exact Hrows.
    + intros row Hrow. apply list_elem_of_In in Hrow.
      pose proof Hrow as Hex. eapply Forall_forall in Hex; [|exact Htotal].
      apply Exists_exists in Hex as ([k rows] & Hg & Hk). simpl in Hk.
      pose proof Hg as Hgrows. eapply Forall_forall in Hgrows; [|exact Hrows].
      simpl in Hgrows. apply list_elem_of_In in Hg, Hrow.
      exists k, rows. split; [assumption|]. split; [assumption|]. split.
      * rewrite Hgrows. apply filter_In. by split.
      * intros k' rows' Hg' Hin'.
        pose proof Hg' as Hrows'. apply list_elem_of_In in Hrows'.
        eapply Forall_forall in Hrows'; [|exact Hrows]. simpl in Hrows'.
        rewrite Hrows' in Hin'. apply filter_In in Hin' as [_ Hk'].
        apply (NoDup_map_eq (λ g : json * list InputRecord, dict_key g.1) grouped);
          try assumption.
        assert (hashable (state_name row) = true) as Hhr.
        { eapply Forall_forall in Hsorted; [exact Hsorted|].
          by apply list_elem_of_In. }
        assert (hashable k = true) as Hhk.
        { eapply Forall_forall in Hhash; [|apply list_elem_of_In; exact Hg].
          exact Hhash. }
        assert (hashable k' = true) as Hhk'.
        { eapply Forall_forall in Hhash; [|apply list_elem_of_In; exact Hg'].
          exact Hhash. }
        unfold in_group in *. simpl.
        apply py_eqb_dict_key in Hk, Hk'; [congruence | assumption..].
Qed.

Lemma grouped_series_partition_witness :
  let sorted := [Example.nevada_row 10 100 80; Example.sparse_row 10 [];
                 Example.nevada_row 11 150 90] in
  ∃ grouped, group_loop sorted [] = Ok grouped ∧
    ∀ k rows, In (k, rows) grouped → rows = List.filter (in_group k) sorted.
Proof.
  intros sorted.
  destruct (grouped_series_partition sorted) as (grouped & Hloop & Hrows & _).
  - repeat constructor.
  - exists grouped. by split.
Defined.




(** C10.  A cache entry of the current version whose rows include a row
    without a timestamp, or a row whose keys are not exactly the fields of
    a Record, is not treated as a miss: whatever the rest of the history,
    the run raises, and the entry is still there afterwards. *)
Theorem malformed_row_aborts_run
    (fromisoformat : string → option datetime) (E : env) (fs : gmap string file)
    (commits : list string) (ref : string) (record : list (string * json))
    (v : json) (rows : list json) (row_data : list (string * json)) :
  git_commits_for E "results.json" = Ok commits →
  In ref commits →
  fs !! cache_path ref = Some (Decoded (JObj record)) →
  dict_lookup "version" record = Some v →
  py_eqb v (JInt CACHE_VERSION) = true →
  iter_get (JObj record) "rows" = Ok rows →
  In (JObj row_data) rows →
  dict_lookup "timestamp" row_data = None ∨
  ¬ (∀ k, In k (List.map fst row_data) ↔ In k InputRecord_fields) →
  (∃ e, (fetch_all_records fromisoformat E fs).2 = Raise e) ∧
  (fetch_all_records fromisoformat E fs).1 !! cache_path ref
  = Some (Decoded (JObj record)).
Proof.
  intros Hlog Hin Hfile Hv Hcur Hrows Hrow Hbad.
  destruct (load_row_malformed fromisoformat row_data Hbad) as [e0 He0].
  destruct (mapM_Raise_elem (load_row fromisoformat) rows _ e0 Hrow He0)
    as [e1 He1].
  assert (read_cache fromisoformat fs (cache_path ref) = Served (Raise e1)) as Hread.
  { unfold read_cache. rewrite Hfile. unfold py_get. rewrite Hv, Hcur.
    unfold load_rows. rewrite Hrows. cbn [mbind result_bind]. by rewrite He1. }
  unfold fetch_all_records. rewrite Hlog.
  destruct (git_Repo E) as [[]|e]; [|by eauto].
  destruct (fetch_loop_served_raise fromisoformat E commits ref fs [] e1 Hin Hread)
    as [e2 He2].
  pose proof (fetch_loop_settled fromisoformat E commits fs [] (cache_path ref))
    as Hkept.
  destruct (fetch_loop fromisoformat E commits fs []) as [fs1 r].
  simpl in *. subst r. split; [by eauto|].
  rewrite Hkept; [assumption|]. rewrite Hread. discriminate.
Qed.

Lemma malformed_row_aborts_run_witness :
  let entry := [("version", JInt 2);
                ("rows", JArr [JObj [("state_name", JStr "Nevada")]])] in
  ∃ e, (fetch_all_records Py37.fromisoformat Example.history
          {[ cache_path Example.rev1 := Decoded (JObj entry) ]}).2 = Raise e.
Proof.
  intros entry.
  apply (malformed_row_aborts_run Py37.fromisoformat Example.history
           {[ cache_path Example.rev1 := Decoded (JObj entry) ]}
           [Example.rev2; Example.rev1] Example.rev1 entry (JInt 2)
           [JObj [("state_name", JStr "Nevada")]]
           [("state_name", JStr "Nevada")]);
    try reflexivity.
  - right. by left.
  - by left.
  - by left.
Defined.

(** * Further properties of the code *)

(** ** The cache path of a commit (line 89) *)

Lemma length_append (s t : string) :
  String.length (s +:+ t) = (String.length s + String.length t)%nat.
Proof.
  induction s as [|c s IH]; [reflexivity|].
  rewrite append_String. simpl. by rewrite IH.
Qed.

Lemma append_inj_r (s t u : string) : s +:+ u = t +:+ u → s = t.
Proof.
  revert t. induction s as [|c s IH]; intros [|d t] H.
  - reflexivity.
  - exfalso. apply (f_equal String.length) in H.
    rewrite !length_append in H. simpl in H. lia.
  - exfalso. apply (f_equal String.length) in H.
    rewrite !length_append in H. simpl in H. lia.
  - rewrite !append_String in H. injection H as -> H. f_equal. by apply IH.
Qed.

Lemma path_join_plain (path b : string) :
  starts_with_sep b = false → String.eqb path "" = false →
  ends_with_sep path = false → path_join path b = path +:+ "/" +:+ b.
Proof. intros Hb Hp He. unfold path_join. by rewrite Hb, Hp, He. Qed.

Lemma starts_with_sep_append (s t : string) :
  sep_free s = true → starts_with_sep t = false →
  starts_with_sep (s +:+ t) = false.
Proof.
  destruct s as [|c s]; [done|]. simpl. intros H _.
  apply andb_true_iff in H as [Hc _]. by apply negb_true_iff in Hc.
Qed.

Lemma cache_path_long (a b : ascii) (rest : string) :
  sep_free (String a (String b rest)) = true →
  cache_path (String a (String b rest))
  = "_cache/" +:+ String a (String b ("/" +:+ rest +:+ ".json")).
Proof.
  intros H. simpl in H.
  apply andb_true_iff in H as [Ha H]. apply andb_true_iff in H as [Hb Hrest].
  apply negb_true_iff in Ha, Hb.
  unfold cache_path. cbn [String.substring string_drop].
  replace (String.substring 0 0 rest) with "" by (by destruct rest).
  rewrite (path_join_plain CACHE_DIR); [| by simpl; rewrite Ha | done | done].
  rewrite path_join_plain; [reflexivity | | done |].
  - by apply starts_with_sep_append.
  - change (ends_with_sep (CACHE_DIR +:+ "/" +:+ String a (String b "")))
      with (Ascii.eqb b "/"). exact Hb.
Qed.

Lemma cache_path_one (a : ascii) :
  sep_free (String a "") = true →
  cache_path (String a "") = "_cache/" +:+ String a "/.json".
Proof.
  intros H. simpl in H. apply andb_true_iff in H as [Ha _].
  apply negb_true_iff in Ha.
  unfold cache_path. cbn [String.substring string_drop].
  rewrite (path_join_plain CACHE_DIR); [| by simpl; rewrite Ha | done | done].
  rewrite path_join_plain; [reflexivity | done | done |].
  change (ends_with_sep (CACHE_DIR +:+ "/" +:+ String a ""))
    with (Ascii.eqb a "/"). exact Ha.
Qed.

(** X1.  The cache file of a commit whose hash has at least two characters
    and no path separator is [_cache/], the first two characters, [/], the
    rest and [.json]; and two hashes without a separator, of any length,
    never share a cache file. *)
Theorem cache_path_injective (ref1 ref2 : string) :
  sep_free ref1 = true → sep_free ref2 = true →
  ((2 ≤ String.length ref1)%nat →
   cache_path ref1 = "_cache/" +:+ String.substring 0 2 ref1 +:+ "/" +:+
                     string_drop 2 ref1 +:+ ".json") ∧
  (cache_path ref1 = cache_path ref2 → ref1 = ref2).
Proof.
  intros H1 H2. split.
  - destruct ref1 as [|a [|b rest]]; simpl; try lia. intros _.
    rewrite (cache_path_long a b rest H1). cbn [String.substring].
    replace (String.substring 0 0 rest) with "" by (by destruct rest).
    reflexivity.
  - destruct ref1 as [|a [|b r1]], ref2 as [|c [|d r2]];
      rewrite ?cache_path_long, ?cache_path_one by assumption;
      try reflexivity; intros H;
      try (exfalso; vm_compute in H; discriminate H).
    all: repeat (rewrite ?append_String, ?append_empty_l in H).
    all: try (injection H; intros; subst; simpl in *;
              repeat match goal with
              | H : context [Ascii.eqb ?x ?x] |- _ => rewrite Ascii.eqb_refl in H
              end; try discriminate).
    all: try reflexivity.
    match goal with
    | Hjson : _ +:+ ".json" = _ +:+ ".json" |- _ =>
        apply append_inj_r in Hjson; by subst
    end.
Qed.

Lemma cache_path_injective_witness :
  cache_path "a1f3" = "_cache/a1/f3.json" ∧
  (cache_path "a1f3" = cache_path "a1f4" → "a1f3" = "a1f4").
Proof.
  destruct (cache_path_injective "a1f3" "a1f4" eq_refl eq_refl) as [Hform Hinj].
  split; [|exact Hinj]. apply Hform. simpl. lia.
Defined.

(** ** The timestamp of a race (line 54) *)












(** ** Failure and shape of a normalization (lines 50-70) *)

Lemma for_each_all_Ok {A B : Type} (f : A → result (list B)) (l : list A) :
  Forall (λ x, ∃ ys, f x = Ok ys) l → ∃ ys, for_each f l = Ok ys.
Proof.
  induction 1 as [|x l [ys Hx] _ [zs IH]]; simpl; [eauto|].
  rewrite Hx, IH. simpl. eauto.
Qed.

(** X3.  The normalizer returns Records for all races or for none: when the
    races before one are normalized and that one raises, the exception is the
    result for the whole document, whatever the races after it hold. *)
Theorem process_json_data_first_failure
    (fromisoformat : string → option datetime) (json_data : json)
    (pre post : list json) (race : json) (e : exn) :
  iter_get json_data "races" = Ok (pre ++ race :: post) →
  Forall (λ r, ∃ rows, process_race fromisoformat r = Ok rows) pre →
  process_race fromisoformat race = Raise e →
  process_json_data fromisoformat json_data = Raise e.
Proof.
  intros Hraces Hpre Hrace. unfold process_json_data. rewrite Hraces.
  cbn [mbind result_bind]. rewrite for_each_app.
  destruct (for_each_all_Ok _ _ Hpre) as [ys ->]. cbn [mbind result_bind for_each].
  by rewrite Hrace.
Qed.

Lemma process_json_data_first_failure_witness :
  process_json_data Py37.fromisoformat
    (JObj [("races", JArr [JObj Example.sparse_race1; JObj []])])
  = Raise AttributeError.
Proof.
  apply (process_json_data_first_failure Py37.fromisoformat _
           [JObj Example.sparse_race1] [] (JObj [])).
  - reflexivity.
  - constructor; [|constructor]. eexists. reflexivity.
  - reflexivity.
Defined.

Lemma candidate_entry_shaped (c entry : json) :
  candidate_entry c = Ok entry → entry_shaped entry.
Proof.
  unfold candidate_entry. intros H.
  apply bind_Ok in H as (name & _ & H). apply bind_Ok in H as (v & _ & H).
  apply bind_Ok in H as (total & _ & [= <-]). by exists name, total.
Qed.

Lemma unit_record_shaped (d : datetime) (race unit : json) (row : InputRecord) :
  unit_record d race unit = Ok row → record_shaped row.
Proof.
  unfold unit_record. intros H.
  apply bind_Ok in H as (cs & _ & H).
  apply bind_Ok in H as (entries & Hentries & H).
  repeat (apply bind_Ok in H as (? & _ & H)).
  injection H as <-. split; [by eexists|]. split; [reflexivity|].
  exists entries. split; [reflexivity|].
  apply mapM_Ok_Forall2 in Hentries.
  induction Hentries as [|c entry cs entries Hc _ IH]; constructor; [|exact IH].
  by eapply candidate_entry_shaped.
Qed.

(** X4.  Every Record the normalizer returns has a datetime as timestamp, an
    empty [counties] mapping, and a list of candidates whose items are
    objects with exactly the keys [last_name] and [votes], in that order. *)
Theorem process_json_data_shaped
    (fromisoformat : string → option datetime) (json_data : json)
    (rows : list InputRecord) :
  process_json_data fromisoformat json_data = Ok rows →
  Forall record_shaped rows.
Proof.
  unfold process_json_data. intros H.
  apply bind_Ok in H as (races & _ & H).
  apply for_each_Ok_inv in H as (per & Hper & ->).
  induction Hper as [|race rs races per Hrace _ IH]; simpl; [constructor|].
  apply Forall_app. split; [|exact IH]. clear IH.
  unfold process_race in Hrace.
  apply bind_Ok in Hrace as (u & _ & Hrace).
  apply bind_Ok in Hrace as (d & _ & Hrace).
  apply bind_Ok in Hrace as (units & _ & Hrace).
  apply mapM_Ok_Forall2 in Hrace.
  induction Hrace as [|unit row units rows Hrow _ IH]; constructor; [|exact IH].
  by eapply unit_record_shaped.
Qed.

Lemma process_json_data_shaped_witness :
  Forall record_shaped
    [Example.sparse_row 10 Example.sparse_entries; Example.sparse_row 11 []].
Proof.
  apply (process_json_data_shaped Py37.fromisoformat Example.sparse).
  reflexivity.
Defined.

(** ** What the loop does to the cache directory (lines 88-117) *)

Section LoopFrame.

Variable fromisoformat : string → option datetime.
Variable E : env.

Lemma read_cache_written (fs : gmap string file) (p : string)
    (rows : list InputRecord) :
  read_cache fromisoformat (write_cache fs p rows) p ≠ Fallthrough.
Proof. unfold read_cache, write_cache. rewrite lookup_insert_eq. discriminate. Qed.

Lemma fetch_loop_keeps_files (commits : list string) (fs : gmap string file)
    (out : list InputRecord) (p : string) :
  is_Some (fs !! p) → is_Some ((fetch_loop fromisoformat E commits fs out).1 !! p).
Proof.
  revert fs out. induction commits as [|ref commits IH]; intros fs out Hp;
    [assumption|].
  rewrite fetch_loop_cons.
  destruct (read_cache fromisoformat fs (cache_path ref)) as [| |[rows|e]];
    try (by apply IH); [|assumption].
  destruct (fetch_rows fromisoformat E ref) as [rows|e]; [|assumption].
  apply IH. unfold write_cache.
  destruct (decide (cache_path ref = p)) as [->|Hne].
  - rewrite lookup_insert_eq. eauto.
  - by rewrite lookup_insert_ne.
Qed.

Lemma fetch_loop_changed (commits : list string) (fs : gmap string file)
    (out : list InputRecord) (p : string) :
  (fetch_loop fromisoformat E commits fs out).1 !! p ≠ fs !! p →
  ∃ ref rows,
    In ref commits ∧ p = cache_path ref ∧
    fetch_rows fromisoformat E ref = Ok rows ∧
    (fetch_loop fromisoformat E commits fs out).1 !! p
    = Some (Decoded (JObj [("version", JInt CACHE_VERSION);
                           ("rows", JArr (List.map row_for_cache rows))])).
Proof.
  revert fs out. induction commits as [|ref commits IH]; intros fs out;
    [by intros []|].
  rewrite fetch_loop_cons.
  assert (∀ fs' out',
            (fetch_loop fromisoformat E commits fs' out').1 !! p ≠ fs' !! p →
            ∃ ref0 rows,
              In ref0 (ref :: commits) ∧ p = cache_path ref0 ∧
              fetch_rows fromisoformat E ref0 = Ok rows ∧
              (fetch_loop fromisoformat E commits fs' out').1 !! p
              = Some (Decoded (JObj [("version", JInt CACHE_VERSION);
                                     ("rows", JArr (List.map row_for_cache rows))])))
    as Hrest.
  { intros fs' out' H. destruct (IH fs' out' H) as (ref0 & rows & Hin & Hrest).
    exists ref0, rows. split; [by right | exact Hrest]. }
  destruct (read_cache fromisoformat fs (cache_path ref)) as [| |[rows|e]];
    try (by apply Hrest); [|by intros []].
  destruct (fetch_rows fromisoformat E ref) as [rows|e] eqn:Hrows; [|by intros []].
  intros Hp. destruct (decide (cache_path ref = p)) as [<-|Hne].
  - exists ref, rows. split; [by left|]. split; [reflexivity|].
    split; [assumption|].
    rewrite fetch_loop_settled by apply read_cache_written.
    unfold write_cache. by rewrite lookup_insert_eq.
  - apply Hrest. by rewrite (write_cache_lookup_ne fs _ p rows Hne).
Qed.

Lemma fetch_loop_all_settled (commits : list string) (fs : gmap string file)
    (out out' : list InputRecord) (ref : string) :
  (fetch_loop fromisoformat E commits fs out).2 = Ok out' →
  In ref commits →
  read_cache fromisoformat (fetch_loop fromisoformat E commits fs out).1
    (cache_path ref) ≠ Fallthrough.
Proof.
  revert fs out. induction commits as [|c commits IH]; intros fs out Hok Hin;
    [destruct Hin|].
  rewrite fetch_loop_cons in *.
  assert (∀ fs' out1,
            read_cache fromisoformat fs' (cache_path c) ≠ Fallthrough →
            (fetch_loop fromisoformat E commits fs' out1).2 = Ok out' →
            read_cache fromisoformat
              (fetch_loop fromisoformat E commits fs' out1).1 (cache_path ref)
            ≠ Fallthrough) as Hstep.
  { intros fs' out1 Hc Hok'. destruct Hin as [->|Hin]; [|by apply IH].
    erewrite read_cache_ext; [exact Hc|]. by apply fetch_loop_settled. }
  destruct (read_cache fromisoformat fs (cache_path c)) as [| |[rows|e]] eqn:Hc.
  - destruct (fetch_rows fromisoformat E c) as [rows|e]; [|discriminate].
    apply Hstep; [apply read_cache_written | assumption].
  - apply Hstep; [by rewrite Hc | assumption].
  - apply Hstep; [by rewrite Hc | assumption].
  - discriminate.
Qed.

End LoopFrame.

Lemma fetch_loop_env_irrelevant (fromisoformat : string → option datetime)
    (E E' : env) (commits : list string) (fs : gmap string file)
    (out : list InputRecord) :
  (∀ ref, In ref commits →
          read_cache fromisoformat fs (cache_path ref) ≠ Fallthrough) →
  fetch_loop fromisoformat E' commits fs out
  = fetch_loop fromisoformat E commits fs out.
Proof.
  revert out. induction commits as [|c commits IH]; intros out Hall;
    [reflexivity|].
  rewrite !fetch_loop_cons.
  pose proof (Hall c (or_introl eq_refl)) as Hc.
  destruct (read_cache fromisoformat fs (cache_path c)) as [| |[rows|e]];
    [done | | | reflexivity]; apply IH; intros ref Hin; apply Hall; by right.
Qed.

(** X5.  A run never removes a cache file, and the only files it changes
    are the cache files of commits of the history that it fetched and
    normalized: such a file then holds the current version and the rows of
    those Records. *)
Theorem run_changes_only_fetched_entries
    (fromisoformat : string → option datetime) (E : env) (fs : gmap string file)
    (p : string) :
  (is_Some (fs !! p) →
   is_Some ((fetch_all_records fromisoformat E fs).1 !! p)) ∧
  ((fetch_all_records fromisoformat E fs).1 !! p ≠ fs !! p →
   ∃ commits ref rows,
     git_commits_for E "results.json" = Ok commits ∧ In ref commits ∧
     p = cache_path ref ∧ fetch_rows fromisoformat E ref = Ok rows ∧
     (fetch_all_records fromisoformat E fs).1 !! p
     = Some (Decoded (JObj [("version", JInt CACHE_VERSION);
                            ("rows", JArr (List.map row_for_cache rows))]))).
Proof.
  unfold fetch_all_records.
  destruct (git_commits_for E "results.json") as [commits|e];
    [|split; [done | by intros []]].
  destruct (git_Repo E) as [[]|e]; [|split; [done | by intros []]].
  pose proof (fetch_loop_keeps_files fromisoformat E commits fs [] p) as Hkeep.
  pose proof (fetch_loop_changed fromisoformat E commits fs [] p) as Hchanged.
  destruct (fetch_loop fromisoformat E commits fs []) as [fs1 r]. simpl in *.
  split; [exact Hkeep|]. intros Hp.
  destruct (Hchanged Hp) as (ref & rows & Hin & Hpath & Hrows & Hentry).
  by exists commits, ref, rows.
Qed.

(** X6.  Once a run has returned a Grouped Series, a later run over the
    same list of commits is served from the cache alone: whatever [git
    show] and the parser would then give, it returns the same series and
    leaves the cache directory as it is. *)
Theorem rerun_served_from_cache
    (fromisoformat : string → option datetime) (E E' : env)
    (fs : gmap string file) (grouped : list (json * list InputRecord)) :
  fromisoformat_laws fromisoformat →
  (fetch_all_records fromisoformat E fs).2 = Ok grouped →
  git_commits_for E' "results.json" = git_commits_for E "results.json" →
  git_Repo E' = Ok () →
  fetch_all_records fromisoformat E' (fetch_all_records fromisoformat E fs).1
  = ((fetch_all_records fromisoformat E fs).1, Ok grouped).
Proof.
  intros laws Hok Hlog Hrepo.
  pose proof (fetch_loop_idempotent fromisoformat laws E) as Hidem.
  unfold fetch_all_records in *. rewrite Hlog, Hrepo.
  destruct (git_commits_for E "results.json") as [commits|e]; [|discriminate].
  destruct (git_Repo E) as [[]|e]; [|discriminate].
  specialize (Hidem commits fs []).
  pose proof (fetch_loop_all_settled fromisoformat E commits fs []) as Hsettled.
  destruct (fetch_loop fromisoformat E commits fs []) as [fs1 r] eqn:Hrun.
  simpl in *. destruct r as [out|e]; [|discriminate].
  rewrite (fetch_loop_env_irrelevant fromisoformat E E' commits fs1 []).
  - rewrite Hidem. f_equal. exact Hok.
  - intros ref Hin. by apply (Hsettled out ref).
Qed.

Lemma run_changes_only_fetched_entries_witness :
  (fetch_all_records Py37.fromisoformat Example.history ∅).1
    !! cache_path Example.rev1
  = Some (Decoded (JObj [("version", JInt 2);
                         ("rows", JArr [row_for_cache (Example.nevada_row 10 100 80)])])).
Proof.
  destruct (run_changes_only_fetched_entries Py37.fromisoformat Example.history ∅
              (cache_path Example.rev1)) as [_ Hchanged].
  destruct Hchanged as (commits & ref & rows & _ & _ & _ & _ & Hentry);
    [discriminate|].
  reflexivity.
Defined.

Lemma rerun_served_from_cache_witness :
  (fetch_all_records Py37.fromisoformat Example.history_offline
     (fetch_all_records Py37.fromisoformat Example.history ∅).1).2
  = Ok [(JStr "Nevada", [Example.nevada_row 10 100 80;
                         Example.nevada_row 11 150 90])].
Proof.
  rewrite (rerun_served_from_cache Py37.fromisoformat Example.history
             Example.history_offline ∅
             [(JStr "Nevada", [Example.nevada_row 10 100 80;
                               Example.nevada_row 11 150 90])]
             Py37_laws); reflexivity.
Defined.

(** X7.  A cache entry that parses but is not an object has no [get]
    method: its lookup raises [AttributeError], so a run whose history lists
    its commit raises, and the entry is still there afterwards. *)
Theorem non_object_entry_aborts_run
    (fromisoformat : string → option datetime) (E : env) (fs : gmap string file)
    (commits : list string) (ref : string) (record : json) :
  git_commits_for E "results.json" = Ok commits →
  In ref commits →
  fs !! cache_path ref = Some (Decoded record) →
  (∀ items, record ≠ JObj items) →
  read_cache fromisoformat fs (cache_path ref) = Served (Raise AttributeError) ∧
  (∃ e, (fetch_all_records fromisoformat E fs).2 = Raise e) ∧
  (fetch_all_records fromisoformat E fs).1 !! cache_path ref
  = Some (Decoded record).
Proof.
  intros Hlog Hin Hfile Hrecord.
  assert (read_cache fromisoformat fs (cache_path ref)
          = Served (Raise AttributeError)) as Hread.
  { unfold read_cache. rewrite Hfile.
    destruct record as [| | | | |items]; try reflexivity.
    by destruct (Hrecord items). }
  split; [assumption|].
  unfold fetch_all_records. rewrite Hlog.
  destruct (git_Repo E) as [[]|e]; [|by eauto].
  destruct (fetch_loop_served_raise fromisoformat E commits ref fs []
              AttributeError Hin Hread) as [e2 He2].
  pose proof (fetch_loop_settled fromisoformat E commits fs [] (cache_path ref))
    as Hkept.
  destruct (fetch_loop fromisoformat E commits fs []) as [fs1 r].
  simpl in *. subst r. split; [by eauto|].
  rewrite Hkept; [assumption|]. rewrite Hread. discriminate.
Qed.

Lemma non_object_entry_aborts_run_witness :
  (fetch_all_records Py37.fromisoformat Example.history
     {[ cache_path Example.rev2 := Decoded (JArr []) ]}).2
  = Raise AttributeError.
Proof.
  destruct (non_object_entry_aborts_run Py37.fromisoformat Example.history
              {[ cache_path Example.rev2 := Decoded (JArr []) ]}
              [Example.rev2; Example.rev1] Example.rev2 (JArr []))
    as (_ & _ & _); try reflexivity; try discriminate.
  by left.
Defined.

(** ** When the sort of line 119 raises *)

Lemma insert_by_key_Ok_head (x y : keyed) (l s : list keyed) :
  insert_by_key x (y :: l) = Ok s → aware y.1 = aware x.1.
Proof.
  simpl. unfold datetime_lt, aware.
  destruct (utcoffset y.1), (utcoffset x.1); (reflexivity || discriminate).
Qed.

Lemma insert_by_key_Raise (x : keyed) (l : list keyed) (e : exn) :
  insert_by_key x l = Raise e → e = TypeError.
Proof.
  induction l as [|y l IH]; simpl; [discriminate|].
  unfold datetime_lt.
  destruct (utcoffset y.1), (utcoffset x.1); simpl;
    try (by intros [= <-]);
    match goal with |- context [if ?b then _ else _] => destruct b end;
    try discriminate;
    destruct (insert_by_key x l) as [r|e0]; simpl; try discriminate;
    intros [= <-]; by apply IH.
Qed.

Lemma sort_keyed_Raise (l : list keyed) (e : exn) :
  sort_keyed l = Raise e → e = TypeError.
Proof.
  induction l as [|x l IH]; simpl; [discriminate|].
  destruct (sort_keyed l) as [s|e0]; simpl.
  - apply insert_by_key_Raise.
  - intros [= <-]. by apply IH.
Qed.

Lemma sort_keyed_Ok_same_awareness (l s : list keyed) :
  sort_keyed l = Ok s → ∃ w, same_awareness w l.
Proof.
  revert s. induction l as [|x l IH]; intros s; simpl.
  - intros _. exists true. constructor.
  - intros H. apply bind_Ok in H as (s' & Hs' & Hins).
    destruct (IH s' Hs') as [w Hw]. exists (aware x.1).
    constructor; [reflexivity|].
    destruct (sort_keyed_spec w l Hw) as (s'' & Hs'' & Hperm & _).
    rewrite Hs' in Hs''. injection Hs'' as <-.
    destruct s' as [|y s'].
    + apply Permutation_nil_r in Hperm. subst l. constructor.
    + apply insert_by_key_Ok_head in Hins.
      assert (aware y.1 = w) as Hy.
      { unfold same_awareness in Hw. rewrite Hperm in Hw. by inversion Hw. }
      unfold same_awareness in *. eapply Forall_impl; [exact Hw|].
      simpl. intros z Hz. congruence.
Qed.

(** X8.  When the sort keys exist but some are aware and some naive, the
    sort of line 119 raises [TypeError]; and [TypeError] is the only
    exception the comparisons of the sort raise. *)
Theorem sort_out_mixed_awareness
    (fromisoformat : string → option datetime) (out : list InputRecord)
    (keys : list datetime) (a b : datetime) :
  mapM (sort_key fromisoformat) out = Ok keys →
  In a keys → In b keys → aware a = true → aware b = false →
  sort_out fromisoformat out = Raise TypeError.
Proof.
  intros Hkeys Ha Hb Haware Hnaive.
  destruct (keyed_rows fromisoformat out keys Hkeys)
    as (keyed & Hkeyed & _ & Hfst & _).
  unfold sort_out. rewrite Hkeyed. cbn [mbind result_bind].
  destruct (sort_keyed keyed) as [s|e] eqn:Hsort.
  - exfalso. destruct (sort_keyed_Ok_same_awareness keyed s Hsort) as [w Hw].
    unfold same_awareness in Hw. rewrite Forall_forall in Hw.
    subst keys. apply in_map_iff in Ha as (x & <- & Hx), Hb as (y & <- & Hy).
    apply list_elem_of_In in Hx, Hy.
    rewrite (Hw x Hx) in Haware. rewrite (Hw y Hy) in Hnaive. congruence.
  - simpl. by rewrite (sort_keyed_Raise keyed e Hsort).
Qed.

Lemma sort_out_mixed_awareness_witness :
  sort_out Py37.fromisoformat
    [Example.nevada_row 10 100 80;
     mkInputRecord (TsDatetime (mkDatetime 2020 11 4 9 0 0 0 None))
       (JStr "Nevada") (JStr "NV") (JInt 6) (JArr []) (JInt 0) (JInt 0)
       (JInt 0) (JInt 0) (JObj [])]
  = Raise TypeError.
Proof.
  apply (sort_out_mixed_awareness Py37.fromisoformat _
           [mkDatetime 2020 11 4 10 0 0 0 (Some 0);
            mkDatetime 2020 11 4 9 0 0 0 None]
           (mkDatetime 2020 11 4 10 0 0 0 (Some 0))
           (mkDatetime 2020 11 4 9 0 0 0 None));
    first [reflexivity | by left | by right; left].
Defined.

(** ** What the grouping keeps (lines 120-122) *)

Lemma grouped_append_headed (row : InputRecord) (grouped : list group) :
  Forall headed grouped →
  Forall headed (grouped_append (state_name row) row grouped).
Proof.
  induction 1 as [|[k rows] grouped Hg Htail IH]; simpl.
  - constructor; [|constructor]. by exists row, [].
  - destruct (py_eqb k (state_name row)).
    + constructor; [|assumption].
      destruct Hg as (r & rest & Hrows & Hk). simpl in *. subst rows.
      by exists r, (rest ++ [row]).
    + by constructor.
Qed.

Lemma grouped_append_concat (key : json) (row : InputRecord) (grouped : list group) :
  concat (List.map snd (grouped_append key row grouped))
  ≡ₚ concat (List.map snd grouped) ++ [row].
Proof.
  induction grouped as [|[k rows] grouped IH]; simpl; [reflexivity|].
  destruct (py_eqb k key); simpl.
  - rewrite <- !app_assoc. apply Permutation_app_head.
    apply Permutation_app_comm.
  - rewrite IH. by rewrite app_assoc.
Qed.

Lemma group_loop_keeps (out : list InputRecord) (grouped grouped' : list group) :
  group_loop out grouped = Ok grouped' →
  Forall headed grouped →
  Forall headed grouped' ∧
  concat (List.map snd grouped') ≡ₚ concat (List.map snd grouped) ++ out.
Proof.
  revert grouped. induction out as [|row out IH]; intros grouped; simpl.
  - intros [= <-] H. split; [assumption|]. by rewrite app_nil_r.
  - destruct (hashable (state_name row)); [|discriminate].
    intros Hloop Hheaded.
    destruct (IH _ Hloop (grouped_append_headed row grouped Hheaded))
      as [Hh Hperm].
    split; [assumption|].
    rewrite Hperm, grouped_append_concat. by rewrite <- app_assoc.
Qed.

(** X9.  The grouping loses and repeats nothing: the Records of all groups
    together are those of the sorted sequence; and no group is empty, each
    being filed under the group key of its first Record. *)
Theorem grouped_series_complete (sorted : list InputRecord)
    (grouped : list (json * list InputRecord)) :
  group_loop sorted [] = Ok grouped →
  concat (List.map snd grouped) ≡ₚ sorted ∧
  ∀ k rows, In (k, rows) grouped →
            ∃ row rest, rows = row :: rest ∧ k = state_name row.
Proof.
  intros H. destruct (group_loop_keeps sorted [] grouped H) as [Hh Hperm];
    [constructor|].
  split; [exact Hperm|]. intros k rows Hin.
  apply list_elem_of_In in Hin. eapply Forall_forall in Hh; [|exact Hin].
  exact Hh.
Qed.

Lemma grouped_series_complete_witness :
  concat (List.map snd
            [(JStr "Nevada", [Example.nevada_row 10 100 80;
                              Example.nevada_row 11 150 90]);
             (JStr "Unknown", [Example.sparse_row 10 []])])
  ≡ₚ [Example.nevada_row 10 100 80; Example.sparse_row 10 [];
      Example.nevada_row 11 150 90].
Proof.
  apply (grouped_series_complete
           [Example.nevada_row 10 100 80; Example.sparse_row 10 [];
            Example.nevada_row 11 150 90]
           [(JStr "Nevada", [Example.nevada_row 10 100 80;
                             Example.nevada_row 11 150 90]);
            (JStr "Unknown", [Example.sparse_row 10 []])]).
  reflexivity.
Defined.

(** ** The order inside the groups of a run *)

Lemma group_loop_Ok_hashable (out : list InputRecord) (grouped grouped' : list group) :
  group_loop out grouped = Ok grouped' → hashable_rows out.
Proof.
  revert grouped. induction out as [|row out IH]; intros grouped; simpl.
  - constructor.
  - destruct (hashable (state_name row)) eqn:Hrow; [|discriminate].
    intros H. constructor; [assumption | by eapply IH].
Qed.

Lemma StronglySorted_filter_keeps {A : Type} (R : A → A → Prop) (p : A → bool)
    (l : list A) :
  StronglySorted R l → StronglySorted R (List.filter p l).
Proof.
  induction 1 as [|x l _ IH Hx]; simpl; [constructor|].
  destruct (p x); [|exact IH]. constructor; [exact IH|].
  apply Forall_forall. intros y Hy. apply list_elem_of_In, filter_In in Hy as [Hy _].
  eapply Forall_forall in Hx; [exact Hx|]. by apply list_elem_of_In.
Qed.

Lemma keyed_rows_keys (fromisoformat : string → option datetime)
    (out : list InputRecord) (keyed : list keyed) :
  mapM (λ row, k ← sort_key fromisoformat row; Ok (k, row)) out = Ok keyed →
  mapM (sort_key fromisoformat) out = Ok (List.map fst keyed).
Proof.
  intros H. apply mapM_Ok_Forall2 in H. apply mapM_Ok_Forall2.
  induction H as [|row x out keyed Hx _ IH]; simpl; constructor; [|exact IH].
  apply bind_Ok in Hx as (k & Hk & [= <-]). exact Hk.
Qed.

Lemma sort_out_Ok_sorted (fromisoformat : string → option datetime)
    (out sorted : list InputRecord) :
  sort_out fromisoformat out = Ok sorted →
  StronglySorted
    (λ a b, row_instant fromisoformat a ≤ row_instant fromisoformat b) sorted.
Proof.
  intros H. pose proof H as Hsort. unfold sort_out in H.
  apply bind_Ok in H as (keyed & Hkeyed & H).
  apply bind_Ok in H as (s & Hs & _).
  destruct (sort_keyed_Ok_same_awareness keyed s Hs) as [w Hw].
  destruct (sort_out_spec fromisoformat out (List.map fst keyed) w)
    as (sorted' & Hsorted' & _ & Hasc & _).
  - by apply keyed_rows_keys.
  - by apply Forall_map.
  - rewrite Hsort in Hsorted'. by injection Hsorted' as ->.
Qed.

Lemma sort_out_Ok_Permutation (fromisoformat : string → option datetime)
    (out sorted : list InputRecord) :
  sort_out fromisoformat out = Ok sorted → Permutation out sorted.
Proof.
  intros H. pose proof H as Hsort. unfold sort_out in H.
  apply bind_Ok in H as (keyed & Hkeyed & H).
  apply bind_Ok in H as (s & Hs & _).
  destruct (sort_keyed_Ok_same_awareness keyed s Hs) as [w Hw].
  destruct (sort_out_spec fromisoformat out (List.map fst keyed) w)
    as (sorted' & Hsorted' & Hperm & _).
  - by apply keyed_rows_keys.
  - by apply Forall_map.
  - rewrite Hsort in Hsorted'. by injection Hsorted' as ->.
Qed.

(** The Records of a run that reaches the grouping hold datetimes: what the
    normalizer builds does, line 101 turns the text of a cache row into one,
    and on anything else the key function of line 119 raises. *)
Lemma sort_out_Ok_datetimes (fromisoformat : string → option datetime)
    (out sorted : list InputRecord) :
  Forall (λ r, ∀ s, timestamp r ≠ TsOther (JStr s)) out →
  sort_out fromisoformat out = Ok sorted →
  Forall (λ row, ∃ d, timestamp row = TsDatetime d) sorted.
Proof.
  intros Hout H. rewrite <- (sort_out_Ok_Permutation fromisoformat out sorted H).
  unfold sort_out in H. apply bind_Ok in H as (keyed & Hkeyed & _).
  apply keyed_rows_keys, mapM_Ok_Forall2 in Hkeyed. revert Hout.
  induction Hkeyed as [|row k out keys Hk _ IH]; intros Hout; [constructor|].
  apply Forall_cons in Hout as [Hrow Hout]. constructor; [|by apply IH].
  exists k. by eapply sort_key_Ok_datetime.
Qed.

(** X10.  In the Grouped Series a run returns, every Record holds a datetime
    as its timestamp, and the Records of every group are in ascending order
    of these timestamps. *)
Theorem grouped_series_time_ordered
    (fromisoformat : string → option datetime) (E : env) (fs : gmap string file)
    (grouped : list (json * list InputRecord)) (k : json)
    (rows : list InputRecord) :
  (fetch_all_records fromisoformat E fs).2 = Ok grouped →
  In (k, rows) grouped →
  Forall (λ row, ∃ d, timestamp row = TsDatetime d) rows ∧
  StronglySorted (λ a b, timestamp_instant a ≤ timestamp_instant b) rows.
Proof.
  unfold fetch_all_records.
  destruct (git_commits_for E "results.json") as [commits|e]; [|discriminate].
  destruct (git_Repo E) as [[]|e]; [|discriminate].
  pose proof (fetch_loop_timestamps fromisoformat E commits fs []) as Hloop.
  destruct (fetch_loop fromisoformat E commits fs []) as [fs1 r]. simpl in *.
  intros H Hin. apply bind_Ok in H as (out & -> & H).
  apply bind_Ok in H as (sorted & Hsorted & Hgroup).
  assert (Forall (λ row, ∃ d, timestamp row = TsDatetime d) sorted) as Hdatetimes.
  { eapply sort_out_Ok_datetimes; [|exact Hsorted].
    apply (Hloop out eq_refl). constructor. }
  apply sort_out_Ok_sorted in Hsorted.
  apply (StronglySorted_measure (row_instant fromisoformat) timestamp_instant)
    in Hsorted.
  2: { eapply Forall_impl; [exact Hdatetimes|]. intros row [d Hd].
       by eapply row_instant_timestamp. }
  destruct (group_loop_spec sorted [] []) as (grouped' & Hgrouped' & Hspec).
  - constructor.
  - by eapply group_loop_Ok_hashable.
  - split; constructor.
  - rewrite Hgroup in Hgrouped'. injection Hgrouped' as <-.
    destruct Hspec as [_ _ Hrows _]. apply list_elem_of_In in Hin.
    eapply Forall_forall in Hrows; [|exact Hin]. simpl in Hrows.
    rewrite Hrows. split; [|by apply StronglySorted_filter_keeps].
    apply Forall_forall. intros row Hrow.
    apply list_elem_of_In, filter_In in Hrow as [Hrow _].
    eapply Forall_forall in Hdatetimes; [exact Hdatetimes|].
    by apply list_elem_of_In.
Qed.

Lemma grouped_series_time_ordered_witness :
  (fetch_all_records Py37.fromisoformat Example.history ∅).2
  = Ok [(JStr "Nevada", [Example.nevada_row 10 100 80;
                         Example.nevada_row 11 150 90])] ∧
  StronglySorted (λ a b, timestamp_instant a ≤ timestamp_instant b)
    [Example.nevada_row 10 100 80; Example.nevada_row 11 150 90].
Proof.
  split; [reflexivity|].
  apply (grouped_series_time_ordered Py37.fromisoformat Example.history ∅
           [(JStr "Nevada", [Example.nevada_row 10 100 80;
                             Example.nevada_row 11 150 90])]
           (JStr "Nevada")).
  - reflexivity.
  - by left.
Defined.

(** ** The figures of the reports (lines 129-137) *)

Section InsertionSort.

Abbreviation int_keyed := (Forall (λ x : json * json, ∃ n, x.1 = JInt n)).

Lemma int_keyed_number (x : json * json) :
  (∃ n, x.1 = JInt n) → py_number x.1 = Some (votes_key x).
Proof. intros [n Hn]. unfold votes_key. by rewrite Hn. Qed.

Lemma insertion_insert_spec (x : json * json) (l : list (json * json)) :
  (∃ n, x.1 = JInt n) → int_keyed l →
  ∃ l1 l2, l = l1 ++ l2 ∧ Insertion.insert x l = Ok (l1 ++ x :: l2) ∧
           Forall (λ y, votes_key x < votes_key y) l1 ∧
           match l2 with
           | [] => True
           | y :: _ => votes_key y ≤ votes_key x
           end.
Proof.
  intros Hx. induction 1 as [|y l Hy Hl IH]; simpl.
  - exists [], []. split; [reflexivity|]. split; [reflexivity|].
    split; constructor.
  - rewrite (int_keyed_number x Hx), (int_keyed_number y Hy).
    destruct (votes_key x <? votes_key y) eqn:Hlt.
    + destruct IH as (l1 & l2 & -> & -> & Hl1 & Hl2).
      exists (y :: l1), l2. split; [reflexivity|]. split; [reflexivity|].
      split; [|assumption]. constructor; [lia | assumption].
    + exists [], (y :: l). split; [reflexivity|]. split; [reflexivity|].
      split; [constructor | lia].
Qed.

Lemma insertion_sort_spec (l : list (json * json)) :
  int_keyed l →
  ∃ s, Insertion.sort l = Ok s ∧ Permutation l s ∧
       StronglySorted (λ a b, votes_key b ≤ votes_key a) s ∧
       ∀ t, List.filter (λ x, votes_key x =? t) s
            = List.filter (λ x, votes_key x =? t) l.
Proof.
  induction 1 as [|x l Hx Hl IH]; simpl.
  - exists []. split; [reflexivity|]. split; [constructor|]. split; constructor.
  - destruct IH as (s & -> & Hperm & Hdesc & Hstable). simpl.
    assert (int_keyed s) as Hs by (by rewrite <- Hperm).
    destruct (insertion_insert_spec x s Hx Hs) as (l1 & l2 & -> & -> & Hl1 & Hl2).
    eexists. split; [reflexivity|]. split; [|split].
    + rewrite Hperm. apply Permutation_middle.
    + clear Hstable Hperm Hs.
      induction l1 as [|y l1 IH1]; simpl in *.
      * constructor; [assumption|]. destruct l2 as [|z l2]; [constructor|].
        inversion Hdesc as [|? ? _ Hz]; subst. constructor; [assumption|].
        eapply Forall_impl; [exact Hz|]. simpl. intros; lia.
      * inversion Hdesc as [|? ? Hrest Hy]; subst.
        inversion Hl1 as [|? ? Hyx Hl1']; subst.
        constructor; [by apply IH1|].
        apply Forall_app in Hy as [Hy1 Hy2]. apply Forall_app.
        split; [assumption|]. constructor; [lia | assumption].
    + intros t. rewrite <- Hstable. rewrite !List.filter_app. simpl.
      destruct (votes_key x =? t) eqn:Hxt; [|reflexivity].
      rewrite (filter_none (λ y, votes_key y =? t) l1); [reflexivity|].
      eapply Forall_impl; [exact Hl1|]. simpl. intros y Hy. lia.
Qed.

Lemma Insertion_sorts_integer_keys : sorts_integer_keys Insertion.sorted_reverse.
Proof.
  intros keyed Hkeyed.
  destruct (insertion_sort_spec keyed Hkeyed) as (s & Hs & Hperm & Hdesc & Hstable).
  exists s. unfold Insertion.sorted_reverse. rewrite Hs. by repeat split.
Qed.

End InsertionSort.

Lemma counted_items (c : json) :
  counted c →
  py_truthy c = true ∧ py_getitem c "votes" = Ok (JInt (entry_votes c)) ∧
  py_getitem c "last_name" = Ok (entry_name c).
Proof.
  intros (items & name & n & -> & Hname & Hvotes). simpl.
  unfold field_or. rewrite Hname, Hvotes.
  destruct items; [discriminate | done].
Qed.

Lemma keyed_counted (cs : list json) :
  Forall counted cs →
  mapM (λ x, k ← py_getitem x "votes"; Ok (k, x)) cs
  = Ok (List.map keyed_entry cs).
Proof.
  intros H. apply mapM_Ok_Forall2.
  induction H as [|c cs Hc _ IH]; simpl; constructor; [|exact IH].
  destruct (counted_items c Hc) as (_ & -> & _). reflexivity.
Qed.

Lemma filter_head_split {A : Type} (p : A → bool) (l fl : list A) (x : A) :
  List.filter p l = x :: fl →
  ∃ pre post, l = pre ++ x :: post ∧ Forall (λ y, p y = false) pre.
Proof.
  induction l as [|y l IH]; simpl; [discriminate|].
  destruct (p y) eqn:Hy.
  - intros [= -> _]. exists [], l. split; [reflexivity | constructor].
  - intros H. destruct (IH H) as (pre & post & -> & Hpre).
    exists (y :: pre), post. split; [reflexivity | by constructor].
Qed.

Section Ranking.

Variable sorted_reverse : list (json * json) → result (list json).
Hypothesis sorts : sorts_integer_keys sorted_reverse.

Lemma candidate_figures_sorted (record : InputRecord) (cs : list json)
    (l : list (json * json)) :
  candidates record = JArr cs → Forall counted cs →
  sorted_reverse (List.map keyed_entry cs) = Ok (List.map snd l) →
  candidate_figures sorted_reverse record =
  (let leading := match List.map snd l with c :: _ => c | [] => JNull end in
   let trailing := match List.map snd l with _ :: c :: _ => c | _ => JNull end in
   leading_name ←
     (if py_truthy leading then py_getitem leading "last_name"
      else Ok (JStr "N/A"));
   trailing_name ←
     (if py_truthy trailing then py_getitem trailing "last_name"
      else Ok (JStr "N/A"));
   differential ←
     (if py_truthy leading && py_truthy trailing
      then a ← py_getitem leading "votes";
           b ← py_getitem trailing "votes";
           py_sub a b
      else Ok (JInt 0));
   Ok (leading_name, trailing_name, differential)).
Proof.
  intros Hcs Hcounted Hsorted. unfold candidate_figures.
  rewrite Hcs. cbn [py_iter mbind result_bind].
  rewrite (keyed_counted cs Hcounted). cbn [mbind result_bind].
  rewrite Hsorted. reflexivity.
Qed.

Lemma candidate_figures_ranking (record : InputRecord) (cs : list json) :
  candidates record = JArr cs → Forall counted cs →
  match cs with
  | [] => candidate_figures sorted_reverse record
          = Ok (JStr "N/A", JStr "N/A", JInt 0)
  | _ :: _ =>
      ∃ pre lead post,
        cs = pre ++ lead :: post ∧
        (∀ c, In c pre → entry_votes c < entry_votes lead) ∧
        (∀ c, In c post → entry_votes c ≤ entry_votes lead) ∧
        match pre ++ post with
        | [] => candidate_figures sorted_reverse record
                = Ok (entry_name lead, JStr "N/A", JInt 0)
        | _ :: _ =>
            ∃ trail,
              In trail (pre ++ post) ∧
              (∀ c, In c (pre ++ post) → entry_votes c ≤ entry_votes trail) ∧
              entry_votes trail ≤ entry_votes lead ∧
              candidate_figures sorted_reverse record
              = Ok (entry_name lead, entry_name trail,
                    JInt (entry_votes lead - entry_votes trail))
        end
  end.
Proof.
  intros Hcs Hcounted.
  assert (Forall (λ x : json * json, ∃ n, x.1 = JInt n) (List.map keyed_entry cs))
    as Hint.
  { apply Forall_map. apply Forall_forall. intros c _. by eexists. }
  destruct (sorts _ Hint) as (l & Hsorted & Hperm & Hdesc & Hstable).
  rewrite (candidate_figures_sorted record cs l Hcs Hcounted Hsorted).
  destruct cs as [|c0 cs'].
  { apply Permutation_nil in Hperm. subst l. reflexivity. }
  destruct l as [|x l'].
  { symmetry in Hperm. apply Permutation_nil in Hperm. discriminate. }
  (* the leader is the first item with the greatest key *)
  pose proof (Hstable (votes_key x)) as Hx. cbn [List.filter] in Hx.
  rewrite Z.eqb_refl in Hx. symmetry in Hx.
  set (cs := c0 :: cs') in *.
  apply filter_head_split in Hx as (kpre & kpost & Hsplit & Hkpre).
  apply map_eq_app in Hsplit as (pre & rest & Hcs' & Hpre & Hrest).
  apply map_eq_cons in Hrest as (lead & post & -> & Hlead & Hpost).
  subst kpre kpost x.
  assert (∀ c, In c cs → entry_votes c ≤ entry_votes lead) as Hmax.
  { intros c Hc.
    assert (In (keyed_entry c) (keyed_entry lead :: l')) as Hin.
    { eapply Permutation_in; [exact Hperm|]. by apply in_map. }
    destruct Hin as [Heq|Hin].
    - injection Heq as Heq _. lia.
    - inversion Hdesc as [|? ? _ Hall]; subst.
      rewrite Forall_forall in Hall. apply list_elem_of_In in Hin.
      apply (Hall _ Hin). }
  exists pre, lead, post. split; [exact Hcs'|]. split; [|split].
  - intros c Hc.
    assert (entry_votes c ≤ entry_votes lead) as Hle.
    { apply Hmax. rewrite Hcs'. apply in_or_app. by left. }
    rewrite Forall_forall in Hkpre.
    assert ((votes_key (keyed_entry c) =? votes_key (keyed_entry lead)) = false)
      as Hne.
    { apply Hkpre. apply list_elem_of_In. by apply in_map. }
    unfold votes_key in Hne. simpl in Hne. lia.
  - intros c Hc. apply Hmax. rewrite Hcs'. apply in_or_app. right. by right.
  - assert (Forall counted (pre ++ lead :: post)) as Hall by (by rewrite <- Hcs').
    assert (counted lead) as Hclead.
    { rewrite Forall_forall in Hall. apply Hall, list_elem_of_In, in_or_app.
      right. by left. }
    destruct (counted_items lead Hclead) as (Htl & Hvl & Hnl).
    rewrite Hcs', List.map_app in Hperm. cbn [List.map] in Hperm.
    symmetry in Hperm. apply Permutation_cons_app_inv in Hperm.
    rewrite <- List.map_app in Hperm.
    destruct (pre ++ post) as [|c1 others] eqn:Hothers.
    + apply Permutation_nil_r in Hperm. subst l'. cbn [List.map snd keyed_entry].
      rewrite Htl, Hnl. reflexivity.
    + destruct l' as [|y l''].
      { apply Permutation_nil in Hperm. discriminate. }
      assert (In y (List.map keyed_entry (c1 :: others))) as Hy.
      { eapply Permutation_in; [exact Hperm|]. by left. }
      apply in_map_iff in Hy as (trail & <- & Htrail).
      assert (counted trail) as Hctrail.
      { rewrite Forall_forall in Hall. apply Hall, list_elem_of_In.
        assert (In trail (pre ++ post)) as Hin by (by rewrite Hothers).
        apply in_app_or in Hin as [Hin|Hin]; apply in_or_app;
          [by left | right; by right]. }
      destruct (counted_items trail Hctrail) as (Htt & Hvt & Hnt).
      exists trail. split; [assumption|]. split; [|split].
      * intros c Hc.
        assert (In (keyed_entry c) (keyed_entry trail :: l'')) as Hin.
        { eapply Permutation_in; [symmetry; exact Hperm|]. by apply in_map. }
        destruct Hin as [Heq|Hin].
        -- injection Heq as Heq _. lia.
        -- inversion Hdesc as [|? ? Htail _]; subst.
           inversion Htail as [|? ? _ Hall']; subst.
           rewrite Forall_forall in Hall'. apply list_elem_of_In in Hin.
           apply (Hall' _ Hin).
      * inversion Hdesc as [|? ? _ Hall']; subst.
        apply Forall_cons in Hall' as [Hle _]. exact Hle.
      * cbn [List.map snd keyed_entry]. rewrite Htl, Htt, Hnl, Hnt.
        cbn [andb mbind result_bind]. rewrite Hvl, Hvt. reflexivity.
Qed.

End Ranking.

(** X11.  When [sorted] orders integer keys as documented and every
    candidate of a Record has a name and an integer count, the figures of
    lines 129-135 are these.  Without candidates: "N/A", "N/A" and 0.
    Otherwise the leading candidate is the first in the Record's order among
    those with the most votes; alone, it leads by 0 over "N/A"; else the
    trailing candidate is one with the most votes among the others and the
    differential is the leader's count minus the trailing one's, which is
    never negative. *)
Theorem leading_candidate_has_most_votes
    (sorted_reverse : list (json * json) → result (list json))
    (record : InputRecord) (cs : list json) :
  sorts_integer_keys sorted_reverse →
  candidates record = JArr cs → Forall counted cs →
  match cs with
  | [] => candidate_figures sorted_reverse record
          = Ok (JStr "N/A", JStr "N/A", JInt 0)
  | _ :: _ =>
      ∃ pre lead post,
        cs = pre ++ lead :: post ∧
        (∀ c, In c pre → entry_votes c < entry_votes lead) ∧
        (∀ c, In c post → entry_votes c ≤ entry_votes lead) ∧
        match pre ++ post with
        | [] => candidate_figures sorted_reverse record
                = Ok (entry_name lead, JStr "N/A", JInt 0)
        | _ :: _ =>
            ∃ trail,
              In trail (pre ++ post) ∧
              (∀ c, In c (pre ++ post) → entry_votes c ≤ entry_votes trail) ∧
              entry_votes trail ≤ entry_votes lead ∧
              candidate_figures sorted_reverse record
              = Ok (entry_name lead, entry_name trail,
                    JInt (entry_votes lead - entry_votes trail))
        end
  end.
Proof. intros Hsorts. by apply candidate_figures_ranking. Qed.

Lemma leading_candidate_has_most_votes_witness :
  let cs := [JObj [("last_name", JStr "X"); ("votes", JInt 80)];
             JObj [("last_name", JStr "Y"); ("votes", JInt 100)]] in
  ∃ pre lead post,
    cs = pre ++ lead :: post ∧
    (∀ c, In c pre → entry_votes c < entry_votes lead) ∧
    (∀ c, In c post → entry_votes c ≤ entry_votes lead).
Proof.
  intros cs.
  destruct (leading_candidate_has_most_votes Insertion.sorted_reverse
              (Example.nevada_row 10 80 100) cs Insertion_sorts_integer_keys)
    as (pre & lead & post & Hsplit & Hpre & Hpost & _).
  - reflexivity.
  - repeat constructor; eexists _, _, _; repeat split; reflexivity.
  - by exists pre, lead, post.
Defined.

Example nevada_figures :
  candidate_figures Insertion.sorted_reverse (Example.nevada_row 10 80 100)
  = Ok (JStr "Y", JStr "X", JInt 20) ∧
  candidate_figures Insertion.sorted_reverse (Example.nevada_row 10 90 90)
  = Ok (JStr "X", JStr "Y", JInt 0).
Proof. split; reflexivity. Qed.

(** ** Votes remaining (line 137) *)

Lemma unit_record_totals (d : datetime) (race : json) (u : list (string * json))
    (row : InputRecord) :
  unit_record d race (JObj u) = Ok row →
  votes row = field_or (JInt 0) "total_votes" u ∧
  expected_votes row = field_or (JInt 0) "total_expected_vote" u.
Proof.
  unfold unit_record. intros H.
  apply bind_Ok in H as (cs & _ & H).
  apply bind_Ok in H as (entries & _ & H).
  rewrite !py_get_field_or in H. cbn -[py_get] in H.
  destruct race; try discriminate.
  rewrite !py_get_field_or in H. cbn in H.
  injection H as <-. split; reflexivity.
Qed.

(** X12.  When the expected count of a Record is a positive integer, the
    votes remaining are the expected count minus the votes counted, with no
    lower bound: the figure is negative when more votes are counted than
    expected.  When it is zero or negative the figure is "Unknown", and that
    is so for every Record the normalizer builds from a reporting unit
    without [total_expected_vote]. *)
Theorem votes_remaining_figure (d : datetime) (race : json)
    (u : list (string * json)) (row : InputRecord) :
  (∀ e v, expected_votes row = JInt e → votes row = JInt v →
          votes_remaining row
          = Ok (if 0 <? e then JInt (e - v) else JStr "Unknown")) ∧
  (unit_record d race (JObj u) = Ok row →
   dict_lookup "total_expected_vote" u = None →
   votes_remaining row = Ok (JStr "Unknown")).
Proof.
  split.
  - intros e v He Hv. unfold votes_remaining, py_positive. rewrite He, Hv.
    simpl. by destruct (0 <? e).
  - intros Hrow Hmissing. apply unit_record_totals in Hrow as [_ He].
    unfold field_or in He. rewrite Hmissing in He.
    unfold votes_remaining, py_positive. by rewrite He.
Qed.

Lemma votes_remaining_figure_witness :
  votes_remaining (Example.sparse_row 10 Example.sparse_entries)
  = Ok (JStr "Unknown").
Proof.
  apply (proj2 (votes_remaining_figure
                  (mkDatetime 2020 11 4 10 0 0 0 (Some 0))
                  (JObj Example.sparse_race1) Example.sparse_unit
                  (Example.sparse_row 10 Example.sparse_entries)));
    reflexivity.
Defined.

(** ** The battleground selection of the entry point (lines 301-303) *)

Lemma py_eqb_JStr (k : json) (s : string) :
  py_eqb k (JStr s) = true → k = JStr s.
Proof.
  destruct k; simpl; try discriminate. intros H. f_equal.
  by apply String.eqb_eq.
Qed.

Lemma grouped_lookup_In (s : string) (records : list group)
    (rows : list InputRecord) :
  grouped_lookup (JStr s) records = Some rows → In (JStr s, rows) records.
Proof.
  unfold grouped_lookup.
  destruct (List.find _ records) as [[k rows']|] eqn:Hfind; [|discriminate].
  intros [= <-]. apply find_some in Hfind as [Hin Hk]. simpl in Hk.
  apply py_eqb_JStr in Hk. by subst.
Qed.

Lemma In_grouped_lookup (s : string) (records : list group)
    (rows : list InputRecord) :
  NoDup (List.map (λ g : group, dict_key g.1) records) →
  In (JStr s, rows) records → grouped_lookup (JStr s) records = Some rows.
Proof.
  intros Hnd Hin. unfold grouped_lookup.
  destruct (List.find _ records) as [[k rows']|] eqn:Hfind.
  - apply find_some in Hfind as [Hin' Hk]. simpl in Hk.
    apply py_eqb_JStr in Hk. subst k.
    assert ((JStr s, rows') = (JStr s, rows)) as Heq
      by (by apply (NoDup_map_eq (λ g : group, dict_key g.1) records)).
    by injection Heq as ->.
  - exfalso. eapply find_none in Hfind; [|exact Hin]. simpl in Hfind.
    by rewrite String.eqb_refl in Hfind.
Qed.

Lemma battlegrounds_summarized_In (records : list group) (k : json)
    (rows : list InputRecord) :
  In (k, rows) (battlegrounds_summarized records) ↔
  ∃ s, k = JStr s ∧ In s BATTLEGROUND_STATES ∧
       grouped_lookup (JStr s) records = Some rows.
Proof.
  unfold battlegrounds_summarized. rewrite in_flat_map. split.
  - intros (s & Hs & Hin).
    destruct (grouped_lookup (JStr s) records) as [rows'|] eqn:Hlookup;
      [|destruct Hin].
    destruct Hin as [[= <- <-]|[]]. by exists s.
  - intros (s & -> & Hs & Hlookup). exists s. split; [assumption|].
    rewrite Hlookup. by left.
Qed.

Lemma battlegrounds_summarized_keys (records : list group)
    (states : list string) :
  states_updated
    (flat_map (λ state,
                 match grouped_lookup (JStr state) records with
                 | Some rows => [(JStr state, rows)]
                 | None => []
                 end) states)
  `sublist_of` List.map JStr states.
Proof.
  unfold states_updated. induction states as [|s states IH]; simpl.
  - constructor.
  - destruct (grouped_lookup (JStr s) records); simpl.
    + by apply sublist_skip.
    + by apply sublist_cons.
Qed.

(** X13.  The selection made for the battleground report out of the
    Grouped Series of a run holds exactly the groups of the series whose
    key is one of the eight names, each with its Records as they are; its
    keys follow the order of [BATTLEGROUND_STATES], and a name without a
    group is left out, not added with an empty group. *)
Theorem battlegrounds_are_groups_of_the_series
    (fromisoformat : string → option datetime) (E : env) (fs : gmap string file)
    (records : list (json * list InputRecord)) :
  (fetch_all_records fromisoformat E fs).2 = Ok records →
  (∀ k rows,
     In (k, rows) (battlegrounds_summarized records) ↔
     In (k, rows) records ∧ ∃ s, k = JStr s ∧ In s BATTLEGROUND_STATES) ∧
  states_updated (battlegrounds_summarized records)
  `sublist_of` List.map JStr BATTLEGROUND_STATES.
Proof.
  intros Hrun. split; [|apply battlegrounds_summarized_keys].
  assert (NoDup (List.map (λ g : group, dict_key g.1) records)) as Hnd.
  { unfold fetch_all_records in Hrun.
    destruct (git_commits_for E "results.json") as [commits|e]; [|discriminate].
    destruct (git_Repo E) as [[]|e]; [|discriminate].
    destruct (fetch_loop fromisoformat E commits fs []) as [fs1 r]. simpl in Hrun.
    apply bind_Ok in Hrun as (out & _ & Hrun).
    apply bind_Ok in Hrun as (sorted & _ & Hgroup).
    destruct (group_loop_spec sorted [] []) as (grouped' & Hgrouped' & Hspec).
    - constructor.
    - by eapply group_loop_Ok_hashable.
    - split; constructor.
    - rewrite Hgroup in Hgrouped'. injection Hgrouped' as <-.
      by destruct Hspec. }
  intros k rows. rewrite battlegrounds_summarized_In. split.
  - intros (s & -> & Hs & Hlookup). split; [by apply grouped_lookup_In | eauto].
  - intros (Hin & s & -> & Hs). exists s. split; [reflexivity|].
    split; [assumption | by apply In_grouped_lookup].
Qed.

Lemma battlegrounds_are_groups_of_the_series_witness :
  battlegrounds_summarized
    [(JStr "Nevada", [Example.nevada_row 10 100 80; Example.nevada_row 11 150 90])]
  = [(JStr "Nevada", [Example.nevada_row 10 100 80; Example.nevada_row 11 150 90])]
  ∧ states_updated
      (battlegrounds_summarized
         [(JStr "Nevada", [Example.nevada_row 10 100 80;
                           Example.nevada_row 11 150 90])])
    `sublist_of` List.map JStr BATTLEGROUND_STATES.
Proof.
  split; [reflexivity|].
  apply (battlegrounds_are_groups_of_the_series Py37.fromisoformat
           Example.history ∅).
  reflexivity.
Defined.

(** ** From the cache to the Grouped Series *)

(** X14.  The Grouped Series a run returns holds, over all its groups,
    exactly the Records that the cache directory has for the commits of the
    history after the run, each as many times as it occurs there. *)
Theorem grouped_series_holds_cached_records
    (fromisoformat : string → option datetime) (E : env) (fs : gmap string file)
    (commits : list string) (grouped : list (json * list InputRecord)) :
  fromisoformat_laws fromisoformat →
  git_commits_for E "results.json" = Ok commits →
  (fetch_all_records fromisoformat E fs).2 = Ok grouped →
  concat (List.map snd grouped)
  ≡ₚ concat (List.map
               (revision_rows fromisoformat (fetch_all_records fromisoformat E fs).1)
               commits).
Proof.
  intros laws Hlog. unfold fetch_all_records. rewrite Hlog.
  destruct (git_Repo E) as [[]|e]; [|discriminate].
  pose proof (fetch_loop_out fromisoformat laws E commits fs []) as Hout.
  destruct (fetch_loop fromisoformat E commits fs []) as [fs1 r]. simpl in *.
  intros H. apply bind_Ok in H as (out & -> & H).
  apply bind_Ok in H as (sorted & Hsorted & Hgroup).
  rewrite <- (Hout out eq_refl).
  apply sort_out_Ok_Permutation in Hsorted.
  destruct (group_loop_keeps sorted [] grouped Hgroup) as [_ Hperm];
    [constructor|].
  simpl in Hperm. by rewrite Hperm, Hsorted.
Qed.

Lemma grouped_series_holds_cached_records_witness :
  [Example.nevada_row 10 100 80; Example.nevada_row 11 150 90]
  ≡ₚ concat (List.map
               (revision_rows Py37.fromisoformat
                  (fetch_all_records Py37.fromisoformat Example.history ∅).1)
               [Example.rev2; Example.rev1]).
Proof.
  apply (grouped_series_holds_cached_records Py37.fromisoformat Example.history ∅
           [Example.rev2; Example.rev1]
           [(JStr "Nevada", [Example.nevada_row 10 100 80;
                             Example.nevada_row 11 150 90])] Py37_laws);
    reflexivity.
Defined.

(** ** A cache entry without rows (lines 97-103) *)

(** X15.  A cache entry of the current version that has no [rows] key, or
    an empty list of rows, serves no Records: its revision is neither fetched
    nor normalized, adds nothing to the sequence, and its entry is left as
    it is. *)
Theorem entry_without_rows_serves_nothing
    (fromisoformat : string → option datetime) (E : env) (fs : gmap string file)
    (ref : string) (commits : list string) (out : list InputRecord)
    (record : list (string * json)) (v : json) :
  fs !! cache_path ref = Some (Decoded (JObj record)) →
  dict_lookup "version" record = Some v →
  py_eqb v (JInt CACHE_VERSION) = true →
  dict_lookup "rows" record = None ∨ dict_lookup "rows" record = Some (JArr []) →
  fetch_loop fromisoformat E (ref :: commits) fs out
  = fetch_loop fromisoformat E commits fs out ∧
  (fetch_loop fromisoformat E (ref :: commits) fs out).1 !! cache_path ref
  = Some (Decoded (JObj record)).
Proof.
  intros Hfile Hv Hcur Hrows.
  assert (read_cache fromisoformat fs (cache_path ref) = Served (Ok [])) as Hread.
  { unfold read_cache. rewrite Hfile. unfold py_get. rewrite Hv, Hcur.
    unfold load_rows, iter_get. rewrite py_get_field_or. unfold field_or.
    by destruct Hrows as [->| ->]. }
  split.
  - by rewrite fetch_loop_cons, Hread, app_nil_r.
  - rewrite fetch_loop_settled; [assumption|]. rewrite Hread. discriminate.
Qed.

Lemma entry_without_rows_serves_nothing_witness :
  (fetch_loop Py37.fromisoformat Example.history [Example.rev1]
     {[ cache_path Example.rev1 := Decoded (JObj [("version", JInt 2)]) ]} []).2
  = Ok [].
Proof.
  destruct (entry_without_rows_serves_nothing Py37.fromisoformat Example.history
              {[ cache_path Example.rev1 := Decoded (JObj [("version", JInt 2)]) ]}
              Example.rev1 [] [] [("version", JInt 2)] (JInt 2))
    as [Hrun _]; [reflexivity | reflexivity | reflexivity | by left |].
  by rewrite Hrun.
Defined.
